(** * Node elevations and edge grades (osmnx/elevation.py)

    A shallow embedding of the three functions of [osmnx/elevation.py]:
    [fetch_elevations_for_latitude_longitude_pairs], [add_node_elevations]
    and [add_edge_grades], with the Python and library operations they
    rely on ([str.format], float formatting, [round], [range], slicing),
    followed by the properties of the batching-and-annotation pipeline.

    Numbers are IEEE binary64 floats ([PrimFloat.float]), as in Python.
    Dictionaries keyed by strings are [gmap string _]. *)

From Stdlib Require Import ZArith Lia Ascii String List.
From Stdlib Require Import Floats.PrimFloat Floats.SpecFloat Floats.FloatOps.
From Stdlib Require Floats.FloatAxioms.
From stdpp Require Import base option list gmap strings pretty.

Local Open Scope string_scope.
Local Open Scope list_scope.
Local Open Scope Z_scope.
#[local] Set Warnings "-inexact-float".

(* ===================================================================== *)
(** ** Python floats *)
(* ===================================================================== *)

Module PyFloat.

(** [p / q] rounded to the nearest integer, ties to even ([0 <= p], [0 < q]). *)
Definition round_half_even (p q : Z) : Z :=
  let d := p / q in
  match 2 * (p mod q) ?= q with
  | Lt => d
  | Gt => d + 1
  | Eq => if Z.even d then d else d + 1
  end.

(** The magnitude [m * 2^e] of a finite float, scaled by [10^places] and
    rounded half-even on its exact value: the integer whose decimal digits
    a correctly rounded conversion to [places] decimals prints. *)
Definition scaled_decimal (m : positive) (e : Z) (places : N) : Z :=
  if 0 <=? e
  then Z.pos m * 2 ^ e * 10 ^ Z.of_N places
  else round_half_even (Z.pos m * 10 ^ Z.of_N places) (2 ^ (- e)).

(** The integer [n] with sign [s] as an (unnormalised) binary float. *)
Definition SF_of_Z (s : bool) (n : Z) : spec_float :=
  match n with
  | Z.pos p => S754_finite s p 0
  | _ => S754_zero s
  end.

(** Python's [round(x, ndigits)] on a float, [ndigits >= 0]: the exact
    value of [x] is rounded half-even to [ndigits] decimals, and the
    decimal obtained is converted back to the nearest double.  Zeros,
    infinities and nan round to themselves. *)
Definition py_round (x : float) (ndigits : N) : float :=
  match Prim2SF x with
  | S754_finite s m e =>
      SF2Prim (SFdiv prec emax (SF_of_Z s (scaled_decimal m e ndigits))
                     (SF_of_Z false (10 ^ Z.of_N ndigits)))
  | _ => x
  end.

(** C's [rint]: the nearest integral double, ties to even. *)
Definition rint (x : float) : float :=
  match Prim2SF x with
  | S754_finite s m e =>
      if 0 <=? e then x
      else SF2Prim (SF_of_Z s (round_half_even (Z.pos m) (2 ^ (- e))))
  | _ => x
  end.

(** numpy's [ndarray.round(decimals)] on float64, [decimals >= 0], which
    pandas' [Series.round] calls: scale, [rint], scale back. *)
Definition np_round (x : float) (decimals : N) : float :=
  let scale := SF2Prim (SF_of_Z false (10 ^ Z.of_N decimals)) in
  PrimFloat.div (rint (PrimFloat.mul x scale)) scale.

(** The [width] low decimal digits of [n], most significant first. *)
Fixpoint digits_fixed (width : nat) (n : Z) : string :=
  match width with
  | O => ""
  | S w => digits_fixed w (n / 10) +:+ String (pretty_N_char (Z.to_N (n mod 10))) ""
  end.

Definition sign_string (s : bool) : string := if s then "-" else "".

(** An integer [n >= 0] standing for [n / 10^places], in fixed notation. *)
Definition fixed_digits (places : N) (n : Z) : string :=
  pretty (Z.to_N (n / 10 ^ Z.of_N places)) +:+
  (if decide (places = 0%N) then ""
   else "." +:+ digits_fixed (N.to_nat places) (n mod 10 ^ Z.of_N places)).

(** ['{:.<places>f}'.format(x)]. *)
Definition format_fixed (places : N) (x : float) : string :=
  match Prim2SF x with
  | S754_nan => "nan"
  | S754_infinity s => sign_string s +:+ "inf"
  | S754_zero s => sign_string s +:+ fixed_digits places 0
  | S754_finite s m e => sign_string s +:+ fixed_digits places (scaled_decimal m e places)
  end.

End PyFloat.

(* ===================================================================== *)
(** ** Exceptions and results *)
(* ===================================================================== *)

(** The Python exceptions the module can raise or meet. *)
Inductive exn : Type :=
  | KeyError (key : string)
  | IndexError (index : nat)
  | ValueError (msg : string)
  | ZeroDivisionError
  | AssertionError
  | UnboundLocalError (var : string)
  (** [requests.get] failed (connection, proxy, timeout, ...) *)
  | RequestException (msg : string)
  (** [response.json()] could not decode the body *)
  | JSONDecodeError
  (** the bare [Exception] of line 96: requested and received counts *)
  | ElevationCountMismatch (requested received : nat)
  (** the bare [Exception] of line 156: nodes and received counts *)
  | NodeCountMismatch (nodes received : nat)
  (** a [str.format] replacement field with a conversion, a format
      specification or an attribute or item access: not evaluated here *)
  | FormatFieldNotModelled (field : string).

Inductive result (A : Type) : Type :=
  | Ok (a : A)
  | Raise (e : exn).
Arguments Ok {A} a.
Arguments Raise {A} e.

Definition is_ok {A} (r : result A) : bool :=
  match r with Ok _ => true | Raise _ => false end.

(* ===================================================================== *)
(** ** [str.format] *)
(* ===================================================================== *)

Module PyFormat.

(** Field numbering state of one [format] call. *)
Inductive numbering : Type :=
  | Unnumbered
  | Automatic (next : nat)
  | Manual.

Definition is_digit (c : ascii) : bool :=
  let n := nat_of_ascii c in (48 <=? n)%nat && (n <=? 57)%nat.

Fixpoint all_digits (s : string) : bool :=
  match s with
  | EmptyString => true
  | String c s' => is_digit c && all_digits s'
  end.

(** Decimal value of a digit string, most significant digit first. *)
Fixpoint nat_of_digits (acc : nat) (s : string) : nat :=
  match s with
  | EmptyString => acc
  | String c s' => nat_of_digits (10 * acc + (nat_of_ascii c - 48))%nat s'
  end.

(** Characters that start a conversion ([!]), a format specification
    ([:]), an attribute access ([.]) or an item access ([[]). *)
Definition starts_suffix (c : ascii) : bool :=
  bool_decide (c = "!"%char) || bool_decide (c = ":"%char) ||
  bool_decide (c = "."%char) || bool_decide (c = "["%char).

(** The value of one replacement field [{name}].  A positional index is
    a run of ASCII digits; other Unicode decimal digits, and an index
    above [sys.maxsize], are not modelled. *)
Definition field_value (args : list string) (kwargs : gmap string string)
    (num : numbering) (name : string) : result (string * numbering) :=
  match name with
  | EmptyString =>
      match num with
      | Manual =>
          Raise (ValueError "cannot switch from manual field specification to automatic field numbering")
      | Unnumbered | Automatic _ =>
          let i := match num with Automatic n => n | _ => O end in
          match args !! i with
          | Some v => Ok (v, Automatic (S i))
          | None => Raise (IndexError i)
          end
      end
  | _ =>
      if all_digits name then
        match num with
        | Automatic _ =>
            Raise (ValueError "cannot switch from automatic field numbering to manual field specification")
        | Unnumbered | Manual =>
            let i := nat_of_digits 0 name in
            match args !! i with
            | Some v => Ok (v, Manual)
            | None => Raise (IndexError i)
            end
        end
      else
        match kwargs !! name with
        | Some v => Ok (v, num)
        | None => Raise (KeyError name)
        end
  end.

(** [prefix] before the output of the rest of the scan. *)
Definition prepend (prefix : string) (r : result string) : result string :=
  match r with
  | Ok out => Ok (prefix +:+ out)
  | Raise e => Raise e
  end.

(** [format_from field num template]: the scan of [template], left to
    right.  [field] is [None] in literal text and [Some name] inside a
    replacement field whose name read so far is [name]. *)
Fixpoint format_from (args : list string) (kwargs : gmap string string)
    (field : option string) (num : numbering) (template : string) : result string :=
  match template with
  | EmptyString =>
      match field with
      | None => Ok ""
      | Some _ => Raise (ValueError "expected '}' before end of string")
      end
  | String c rest =>
      match field with
      | None =>
          if Ascii.eqb c "{" then
            match rest with
            | EmptyString => Raise (ValueError "Single '{' encountered in format string")
            | String c' rest' =>
                if Ascii.eqb c' "{"
                then prepend "{" (format_from args kwargs None num rest')
                else format_from args kwargs (Some "") num rest
            end
          else if Ascii.eqb c "}" then
            match rest with
            | EmptyString => Raise (ValueError "Single '}' encountered in format string")
            | String c' rest' =>
                if Ascii.eqb c' "}"
                then prepend "}" (format_from args kwargs None num rest')
                else Raise (ValueError "Single '}' encountered in format string")
            end
          else prepend (String c "") (format_from args kwargs None num rest)
      | Some name =>
          if Ascii.eqb c "}" then
            match field_value args kwargs num name with
            | Ok (v, num') => prepend v (format_from args kwargs None num' rest)
            | Raise e => Raise e
            end
          else if Ascii.eqb c "{" then Raise (ValueError "unexpected '{' in field name")
          else if starts_suffix c then Raise (FormatFieldNotModelled name)
          else format_from args kwargs (Some (name +:+ String c "")) num rest
      end
  end.

(** [template.format( *args, **kwargs)] with string arguments. *)
Definition format (template : string) (args : list string)
    (kwargs : gmap string string) : result string :=
  format_from args kwargs None Unnumbered template.

End PyFormat.

(* ===================================================================== *)
(** ** Data model *)
(* ===================================================================== *)

(** A graph node key.  OSM node ids are integers; networkx accepts any
    hashable key, of which strings are the other kind modelled. *)
Inductive node_key : Type :=
  | KInt (z : Z)
  | KStr (s : string).

Global Instance node_key_eq_dec : EqDecision node_key.
Proof. solve_decision. Defined.

(** One row of the coordinate table: the index entry and the two columns
    ['latitude'] and ['longitude']. *)
Record row : Type := mk_row {
  row_index : node_key;
  latitude : float;
  longitude : float;
}.

(** The [pd.DataFrame] of coordinate pairs.  [df_elevation] is the column
    ['elevation'], absent until line 101 assigns it. *)
Record DataFrame : Type := mk_frame {
  df_rows : list row;
  df_elevation : option (list float);
}.

(** One entry of the ['results'] list of a response, and the decoded JSON
    body of a response: an object with a ['results'] list whose entries
    carry an ['elevation'] number, as the elevation endpoint answers.
    Bodies of another shape are not modelled. *)
Record result_entry : Type := mk_entry { elevation : float }.
Record json_body : Type := mk_json { json_results : list result_entry }.

(** A [requests.Response]; [body = None] when [response.json()] raises. *)
Record http_response : Type := mk_response {
  status_code : Z;
  reason : string;
  body : option json_body;
}.

(** What one call of [requests.get] does: return a response or raise. *)
Inductive http_outcome : Type :=
  | Responds (r : http_response)
  | Fails (msg : string).

(** Messages passed to [log], by call site. *)
Inductive log_msg : Type :=
  | LogCallCount (pairs : nat) (per_batch : Z)        (* line 65 *)
  | LogRequesting (url : string)                      (* line 82 *)
  | LogException (e : exn)                            (* line 88 *)
  | LogServerResponded (status : Z) (why : string)    (* line 89 *)
  | LogCountsAgree (requested received : nat)         (* line 98 *)
  | LogNodeCountsAgree (nodes received : nat)         (* line 158 *)
  | LogAddedElevations                                (* line 163 *)
  | LogAddedGrades.                                   (* line 197 *)

(** Effects on the outside world, in the order they happen. *)
Inductive event : Type :=
  | EvLog (m : log_msg)
  | EvSleep (seconds : float)
  | EvGet (url : string) (proxies : gmap string string).

(** Node and edge attribute dictionaries (numeric attributes). *)
Abbreviation attrs := (gmap string float).

(** One edge of the multidigraph with its data dictionary. *)
Record edge : Type := mk_edge {
  e_src : node_key;
  e_dst : node_key;
  e_data : attrs;
}.

(** A networkx MultiDiGraph: nodes in insertion order with their
    attribute dictionaries, edges in iteration order. *)
Record Graph : Type := mk_graph {
  g_nodes : list (node_key * attrs);
  g_edges : list edge;
}.

(** The local variables of the fetch function that outlive one loop
    iteration; [None] is an unbound name. *)
Record locals : Type := mk_locals {
  response : option http_response;
  response_json : option json_body;
  results : list result_entry;
}.

(** Program state: the frame and the graph the functions mutate in place,
    the local variables of the running fetch, the response cache, the
    outcomes the network will give to the coming [requests.get] calls, and
    the effects so far. *)
Record state : Type := mk_state {
  frame : DataFrame;
  graph : Graph;
  vars : locals;
  cache : gmap string json_body;
  network : list http_outcome;
  trace : list event;
}.

Definition set_frame (d : DataFrame) (s : state) : state :=
  mk_state d (graph s) (vars s) (cache s) (network s) (trace s).
Definition set_graph (g : Graph) (s : state) : state :=
  mk_state (frame s) g (vars s) (cache s) (network s) (trace s).
Definition set_vars (l : locals) (s : state) : state :=
  mk_state (frame s) (graph s) l (cache s) (network s) (trace s).
Definition set_cache (c : gmap string json_body) (s : state) : state :=
  mk_state (frame s) (graph s) (vars s) c (network s) (trace s).
Definition set_network (n : list http_outcome) (s : state) : state :=
  mk_state (frame s) (graph s) (vars s) (cache s) n (trace s).
Definition add_event (e : event) (s : state) : state :=
  mk_state (frame s) (graph s) (vars s) (cache s) (network s) (trace s ++ [e]).

(* ===================================================================== *)
(** ** State and exception monad *)
(* ===================================================================== *)

Definition M (A : Type) : Type := state -> result A * state.

Definition ret {A} (a : A) : M A := fun s => (Ok a, s).
Definition raise {A} (e : exn) : M A := fun s => (Raise e, s).
Definition bind {A B} (m : M A) (k : A -> M B) : M B :=
  fun s => match m s with
           | (Ok a, s') => k a s'
           | (Raise e, s') => (Raise e, s')
           end.
Definition get_state : M state := fun s => (Ok s, s).
Definition modify (f : state -> state) : M unit := fun s => (Ok tt, f s).
Definition lift {A} (r : result A) : M A := fun s => (r, s).

(** [try: body except Exception as e: handler e]. *)
Definition try_except {A} (body : M A) (handler : exn -> M A) : M A :=
  fun s => match body s with
           | (Ok a, s') => (Ok a, s')
           | (Raise e, s') => handler e s'
           end.

Notation "x <- m ;; k" := (bind m (fun x => k))
  (at level 100, m at next level, right associativity).
Notation "m ;;; k" := (bind m (fun _ => k))
  (at level 100, right associativity).

(** [for x in xs: body(x)], stopping at the first exception. *)
Fixpoint for_each {A} (xs : list A) (body : A -> M unit) : M unit :=
  match xs with
  | [] => ret tt
  | x :: xs' => body x ;;; for_each xs' body
  end.

(* ===================================================================== *)
(** ** Collaborators *)
(* ===================================================================== *)

Definition log (m : log_msg) : M unit := modify (add_event (EvLog m)).

(** Modelled from the spec: [get_from_cache] of [osmnx/core.py], which the
    module imports; the "lookup-by-key" operation of the cache collaborator,
    [get(key) -> parsed response or absent]. *)
Definition get_from_cache (url : string) : M (option json_body) :=
  s <- get_state ;; ret (cache s !! url).

(** Modelled from the spec: [save_to_cache] of [osmnx/core.py], which the
    module imports; the "store-by-key" operation of the cache collaborator,
    [put(key, value)], keyed by the full request URL. *)
Definition save_to_cache (url : string) (j : json_body) : M unit :=
  s <- get_state ;; modify (set_cache (<[url := j]> (cache s))).

(** [time.sleep(seconds)]: raises [ValueError] unless [0 <= seconds]
    (so also for nan).  Durations beyond the platform's clock range are
    not modelled. *)
Definition time_sleep (seconds : float) : M unit :=
  if PrimFloat.leb 0 seconds
  then modify (add_event (EvSleep seconds))
  else raise (ValueError "sleep length must be non-negative").

(** [requests.get(url, proxies=proxies)]: the next outcome of the network;
    a network that has no outcome left refuses the connection. *)
Definition requests_get (url : string) (proxies : gmap string string) : M http_response :=
  modify (add_event (EvGet url proxies)) ;;;
  s <- get_state ;;
  match network s with
  | [] => raise (RequestException "connection refused")
  | Responds r :: rest => modify (set_network rest) ;;; ret r
  | Fails msg :: rest => modify (set_network rest) ;;; raise (RequestException msg)
  end.

(** [response.json()]. *)
Definition json_of (r : http_response) : M json_body :=
  match body r with
  | Some j => ret j
  | None => raise JSONDecodeError
  end.

(* ===================================================================== *)
(** ** [range] and slicing *)
(* ===================================================================== *)

(** The values [start, start + step, ...] of [range(start, stop, step)],
    at most [fuel] of them. *)
Fixpoint range_from (fuel : nat) (start stop step : Z) : list Z :=
  match fuel with
  | O => []
  | S fuel' =>
      if (if 0 <? step then start <? stop else stop <? start)
      then start :: range_from fuel' (start + step) stop step
      else []
  end.

(** [range(start, stop, step)]; a range has at most [|stop - start|]
    values, which is the fuel given. *)
Definition py_range (start stop step : Z) : result (list Z) :=
  if step =? 0 then Raise (ValueError "range() arg 3 must not be zero")
  else Ok (range_from (Z.to_nat (Z.abs (stop - start))) start stop step).

(** [rows.iloc[i : j]] for [0 <= i]. *)
Definition iloc {A} (l : list A) (i j : Z) : list A :=
  take (Z.to_nat (j - i)) (drop (Z.to_nat i) l).

(* ===================================================================== *)
(** ** [fetch_elevations_for_latitude_longitude_pairs] *)
(* ===================================================================== *)

(** The parameters of the fetch besides the frame, which is [frame] of
    the state. *)
Record fetch_args : Type := mk_fetch_args {
  url_template_kwargs : gmap string string;
  decimal_places_to_round : Z;
  max_locations_per_batch : Z;
  pause_duration : float;
  url_template : string;
  proxies : gmap string string;
}.

Definition default_url_template : string :=
  "https://maps.googleapis.com/maps/api/elevation/json?locations={locations}&key={api_key}".

(** The fetch called with its defaults (lines 23-27) and an API key. *)
Definition default_fetch_args (api_key : string) : fetch_args :=
  {| url_template_kwargs := {[ "api_key" := api_key ]};
     decimal_places_to_round := 5;
     max_locations_per_batch := 350;
     pause_duration := 0.02%float;
     url_template := default_url_template;
     proxies := ∅ |}.

(** Line 68 with the [format] call of line 72 on one row:
    ['{:.Pf},{:.Pf}'.format(row.latitude, row.longitude)].  A precision
    too large for [format] (above the C [INT_MAX]), which Python refuses
    with [ValueError], is not modelled. *)
Definition format_pair (places : Z) (r : row) : result string :=
  if places <? 0 then Raise (ValueError "Format specifier missing precision")
  else Ok (PyFloat.format_fixed (Z.to_N places) (latitude r) +:+ "," +:+
           PyFloat.format_fixed (Z.to_N places) (longitude r)).

(** [sep.join(...)] over the items a generator yields: the first item that
    raises aborts the join. *)
Fixpoint join_results (sep : string) (items : list (result string)) : result string :=
  match items with
  | [] => Ok ""
  | [x] => x
  | x :: rest =>
      match x, join_results sep rest with
      | Ok a, Ok b => Ok (a +:+ sep +:+ b)
      | Raise e, _ => Raise e
      | Ok _, Raise e => Raise e
      end
  end.

(** Line 72. *)
Definition locations_of (places : Z) (chunk : list row) : result string :=
  join_results "|" (format_pair places <$> chunk).

(** Lines 72-73: the request URL of a chunk. *)
Definition request_url (a : fetch_args) (chunk : list row) : result string :=
  match locations_of (decimal_places_to_round a) chunk with
  | Ok locations => PyFormat.format (url_template a) [locations] (url_template_kwargs a)
  | Raise e => Raise e
  end.

Definition assign_response (r : http_response) : M unit :=
  s <- get_state ;;
  modify (set_vars (mk_locals (Some r) (response_json (vars s)) (results (vars s)))).
Definition assign_response_json (j : json_body) : M unit :=
  s <- get_state ;;
  modify (set_vars (mk_locals (response (vars s)) (Some j) (results (vars s)))).
Definition extend_results (es : list result_entry) : M unit :=
  s <- get_state ;;
  modify (set_vars (mk_locals (response (vars s)) (response_json (vars s))
                              (results (vars s) ++ es))).

(** Lines 87-89: the handler reads the local [response], which is bound
    only once some [requests.get] of this call has returned. *)
Definition except_handler (e : exn) : M unit :=
  log (LogException e) ;;;
  s <- get_state ;;
  match response (vars s) with
  | Some r => log (LogServerResponded (status_code r) (reason r))
  | None => raise (UnboundLocalError "response")
  end.

(** Lines 76-92: one iteration of the loop, on the chunk of line 71. *)
Definition fetch_batch (a : fetch_args) (chunk : list row) : M unit :=
  url <- lift (request_url a chunk) ;;
  cached_response_json <- get_from_cache url ;;
  match cached_response_json with
  | Some j => assign_response_json j
  | None =>
      try_except
        (log (LogRequesting url) ;;;
         time_sleep (pause_duration a) ;;;
         r <- requests_get url (proxies a) ;;
         assign_response r ;;;
         j <- json_of r ;;
         assign_response_json j ;;;
         save_to_cache url j)
        except_handler
  end ;;;
  (* line 92 *)
  s <- get_state ;;
  match response_json (vars s) with
  | Some j => extend_results (json_results j)
  | None => raise (UnboundLocalError "response_json")
  end.

(** Lines 70-71: the chunks the loop visits. *)
Definition batches (rows : list row) (per_batch : Z) : result (list (list row)) :=
  match py_range 0 (Z.of_nat (length rows)) per_batch with
  | Ok starts => Ok ((fun i => iloc rows i (i + per_batch)) <$> starts)
  | Raise e => Raise e
  end.

(** Lines 65-92: the log of the call count, whose division raises when
    [max_locations_per_batch] is 0, and the loop over the chunks. *)
Definition fetch_batches (a : fetch_args) : M unit :=
  modify (set_vars (mk_locals None None [])) ;;;
  s <- get_state ;;
  let pairs := df_rows (frame s) in
  (if max_locations_per_batch a =? 0 then raise ZeroDivisionError
   else log (LogCallCount (length pairs) (max_locations_per_batch a))) ;;;
  chunks <- lift (batches pairs (max_locations_per_batch a)) ;;
  for_each chunks (fetch_batch a).

(** Lines 94-102: the sanity check and the new column. *)
Definition attach_elevations : M unit :=
  s <- get_state ;;
  let requested := length (df_rows (frame s)) in
  let received := length (results (vars s)) in
  if bool_decide (received = requested) then
    log (LogCountsAgree requested received) ;;;
    modify (set_frame (mk_frame (df_rows (frame s))
                                (Some (elevation <$> results (vars s)))))
  else raise (ElevationCountMismatch requested received).

(** The whole function; the frame it returns is [frame] of the final state. *)
Definition fetch_elevations_for_latitude_longitude_pairs (a : fetch_args) : M unit :=
  fetch_batches a ;;; attach_elevations.

(* ===================================================================== *)
(** ** [add_node_elevations] *)
(* ===================================================================== *)

Global Instance node_key_countable : Countable node_key.
Proof.
  refine (inj_countable'
            (fun k => match k with KInt z => inl z | KStr s => inr s end)
            (fun x => match x with inl z => KInt z | inr s => KStr s end) _).
  intros k. destruct k; reflexivity.
Defined.

(** [repr] of a node key, as a [KeyError] shows it. *)
Definition key_repr (k : node_key) : string :=
  match k with
  | KInt z => pretty z
  | KStr s => "'" +:+ s +:+ "'"
  end.

(** The column types pandas infers that the assertions tell apart. *)
Inductive dtype : Type := int64 | float64 | object_dtype.

Global Instance dtype_eq_dec : EqDecision dtype.
Proof. solve_decision. Defined.

Definition fits_int64 (k : node_key) : bool :=
  match k with
  | KInt z => (- 2 ^ 63 <=? z) && (z <? 2 ^ 63)
  | KStr _ => false
  end.

(** The dtype of a column built from node keys: [int64] when every key is
    an integer of 64 bits, [object] otherwise and for an empty column. *)
Definition key_dtype (keys : list node_key) : dtype :=
  match keys with
  | [] => object_dtype
  | _ => if forallb fits_int64 keys then int64 else object_dtype
  end.

(** The dtype of a column built from Python floats. *)
Definition float_dtype (values : list float) : dtype :=
  match values with
  | [] => object_dtype
  | _ => float64
  end.

(** The items of a list of results, up to the first that raises. *)
Fixpoint collect {A} (items : list (result A)) : result (list A) :=
  match items with
  | [] => Ok []
  | Raise e :: _ => Raise e
  | Ok a :: rest =>
      match collect rest with
      | Ok l => Ok (a :: l)
      | Raise e => Raise e
      end
  end.

(** Line 138: [(node, data['y'], data['x'])]. *)
Definition node_triple (nd : node_key * attrs) : result row :=
  match nd.2 !! "y" with
  | None => Raise (KeyError "y")
  | Some y =>
      match nd.2 !! "x" with
      | None => Raise (KeyError "x")
      | Some x => Ok (mk_row nd.1 y x)
      end
  end.

(** Lines 138-143: the coordinate table of the graph, indexed by node. *)
Definition coordinate_table (G : Graph) : result DataFrame :=
  match collect (node_triple <$> g_nodes G) with
  | Raise e => Raise e
  | Ok rows =>
      if bool_decide (key_dtype (row_index <$> rows) = int64) then
        if bool_decide (float_dtype (latitude <$> rows) = float64) then
          if bool_decide (float_dtype (longitude <$> rows) = float64) then
            Ok (mk_frame rows None)
          else Raise AssertionError
        else Raise AssertionError
      else Raise AssertionError
  end.

(** [df['elevation'].to_dict()]: index entry to value, a later row
    replacing an earlier one with the same index entry. *)
Definition to_dict (index : list node_key) (values : list float) : gmap node_key float :=
  foldl (fun d kv => <[kv.1 := kv.2]> d) ∅ (zip index values).

(** [nx.set_node_attributes(G, name=name, values=values)] with a
    dictionary of values: nodes absent from [values] are left alone. *)
Definition set_node_attributes (G : Graph) (name : string)
    (values : gmap node_key float) : Graph :=
  mk_graph
    ((fun nd : node_key * attrs =>
        match values !! nd.1 with
        | Some v => (nd.1, <[name := v]> nd.2)
        | None => nd
        end) <$> g_nodes G)
    (g_edges G).

(** The parameters of [add_node_elevations] besides the graph. *)
Record node_args : Type := mk_node_args {
  api_key : string;
  node_max_locations_per_batch : Z;
  node_pause_duration : float;
  node_url_template : string;
  node_proxies : gmap string string;
}.

Definition default_node_url_template : string :=
  "https://maps.googleapis.com/maps/api/elevation/json?locations={}&key={}".

Definition default_node_args (key : string) : node_args :=
  {| api_key := key;
     node_max_locations_per_batch := 350;
     node_pause_duration := 0.02%float;
     node_url_template := default_node_url_template;
     node_proxies := ∅ |}.

(** Lines 146-152: the arguments of the fetch. *)
Definition fetch_args_of (a : node_args) : fetch_args :=
  {| url_template_kwargs := {[ "api_key" := api_key a ]};
     decimal_places_to_round := 5;
     max_locations_per_batch := node_max_locations_per_batch a;
     pause_duration := node_pause_duration a;
     url_template := node_url_template a;
     proxies := node_proxies a |}.

(** Lines 154-165: the sanity check, the rounding and the write. *)
Definition write_node_elevations : M unit :=
  s <- get_state ;;
  match df_elevation (frame s) with
  | None => raise (KeyError "elevation")
  | Some column =>
      let nodes := length (g_nodes (graph s)) in
      if bool_decide (length column = nodes) then
        log (LogNodeCountsAgree nodes (length column)) ;;;
        let rounded := (fun x => PyFloat.np_round x 3) <$> column in
        modify (set_frame (mk_frame (df_rows (frame s)) (Some rounded))) ;;;
        modify (set_graph
                  (set_node_attributes (graph s) "elevation"
                     (to_dict (row_index <$> df_rows (frame s)) rounded))) ;;;
        log LogAddedElevations
      else raise (NodeCountMismatch nodes (length column))
  end.

(** The whole function; the graph it returns is [graph] of the final state. *)
Definition add_node_elevations (a : node_args) : M unit :=
  s <- get_state ;;
  df <- lift (coordinate_table (graph s)) ;;
  modify (set_frame df) ;;;
  fetch_elevations_for_latitude_longitude_pairs (fetch_args_of a) ;;;
  write_node_elevations.

(* ===================================================================== *)
(** ** [add_edge_grades] *)
(* ===================================================================== *)

(** [G.nodes[n]]: the attribute dictionary of the node. *)
Definition node_data (G : Graph) (n : node_key) : result attrs :=
  match list_find (fun nd : node_key * attrs => nd.1 = n) (g_nodes G) with
  | Some (_, nd) => Ok nd.2
  | None => Raise (KeyError (key_repr n))
  end.

(** [data[name]]. *)
Definition getitem (data : attrs) (name : string) : result float :=
  match data !! name with
  | Some v => Ok v
  | None => Raise (KeyError name)
  end.

(** [x / y] on Python floats. *)
Definition truediv (x y : float) : result float :=
  if PrimFloat.eqb y 0 then Raise ZeroDivisionError else Ok (PrimFloat.div x y).

(** [G.nodes[n]['elevation']]. *)
Definition node_elevation (G : Graph) (n : node_key) : result float :=
  match node_data G n with
  | Ok data => getitem data "elevation"
  | Raise e => Raise e
  end.

(** Lines 189-195 on one edge [(u, v, data)]: the data dictionary of the
    edge after the body of the loop, or the exception the body raises. *)
Definition graded (G : Graph) (add_absolute : bool) (e : edge) : result attrs :=
  match node_elevation G (e_dst e) with
  | Raise x => Raise x
  | Ok elevation_v =>
      match node_elevation G (e_src e) with
      | Raise x => Raise x
      | Ok elevation_u =>
          let elevation_change := PrimFloat.sub elevation_v elevation_u in
          match getitem (e_data e) "length" with
          | Raise x => Raise x
          | Ok length_ =>
              match truediv elevation_change length_ with
              | Raise x => Raise x
              | Ok quotient =>
                  let grade := PyFloat.py_round quotient 4 in
                  let data := <["grade" := grade]> (e_data e) in
                  Ok (if add_absolute
                      then <["grade_abs" := PrimFloat.abs grade]> data
                      else data)
              end
          end
      end
  end.

(** One iteration of the loop of line 188, on the edge at position [i]
    of the iteration: the body writes into the data dictionary of that
    edge, in place. *)
Definition grade_edge (add_absolute : bool) (i : nat) : M unit :=
  s <- get_state ;;
  let G := graph s in
  match g_edges G !! i with
  | None => ret tt
  | Some e =>
      data <- lift (graded G add_absolute e) ;;
      modify (set_graph
                (mk_graph (g_nodes G)
                          (<[i := mk_edge (e_src e) (e_dst e) data]> (g_edges G))))
  end.

(** The whole function; the graph it returns is [graph] of the final state. *)
Definition add_edge_grades (add_absolute : bool) : M unit :=
  s <- get_state ;;
  for_each (seq 0 (length (g_edges (graph s)))) (grade_edge add_absolute) ;;;
  log LogAddedGrades.

(* ===================================================================== *)
(** ** Notions the statements use, and sample inputs *)
(* ===================================================================== *)

(** The number of batches of [n] rows, [b] at a time: [ceil(n / b)]. *)
Definition batch_count (n b : nat) : nat := ((n + b - 1) / b)%nat.

Definition five_rows : list row :=
  (fun z => mk_row (KInt z) 1%float 2%float) <$> [1; 2; 3; 4; 5].

(** [respects R E m]: every run of [m] relates its first state to its last
    by [R], and raises only exceptions of [E]. *)
Definition respects {A} (R : state -> state -> Prop) (E : exn -> Prop) (m : M A) : Prop :=
  forall s r s', m s = (r, s') -> R s s' /\ forall e, r = Raise e -> E e.

Definition any_exn : exn -> Prop := fun _ => True.
Definition no_exn : exn -> Prop := fun _ => False.

(** The frame and the graph are as before. *)
Definition same_objects (s s' : state) : Prop :=
  frame s' = frame s /\ graph s' = graph s.

(** Neither mismatch exception. *)
Definition not_a_mismatch (e : exn) : Prop :=
  match e with
  | ElevationCountMismatch _ _ | NodeCountMismatch _ _ => False
  | _ => True
  end.

(** [served a chunks c n js c' n']: starting with cache [c] and a network
    that will answer [n], every chunk in turn is served without a failure,
    either by the cache entry of its URL or, when there is none and the
    pause is valid, by a response whose body decodes and is then cached;
    [js] are the decoded bodies in chunk order, [c'] is the final cache
    and [n'] what the network has left to answer. *)
Inductive served (a : fetch_args) :
    list (list row) -> gmap string json_body -> list http_outcome ->
    list json_body -> gmap string json_body -> list http_outcome -> Prop :=
  | served_nil c n : served a [] c n [] c n
  | served_hit chunk chunks c n url j js c' n' :
      request_url a chunk = Ok url ->
      c !! url = Some j ->
      served a chunks c n js c' n' ->
      served a (chunk :: chunks) c n (j :: js) c' n'
  | served_miss chunk chunks c n url r j js c' n' :
      request_url a chunk = Ok url ->
      c !! url = None ->
      PrimFloat.leb 0 (pause_duration a) = true ->
      body r = Some j ->
      served a chunks (<[url := j]> c) n js c' n' ->
      served a (chunk :: chunks) c (Responds r :: n) (j :: js) c' n'.

(** The events of a trace that are calls of [requests.get]. *)
Definition is_network_call (e : event) : bool :=
  match e with EvGet _ _ => true | _ => false end.
Definition network_calls (t : list event) : list event :=
  List.filter is_network_call t.

(** A run on three pairs, two per batch: the first batch is answered by
    the network, the second by the cache. *)
Definition demo_rows : list row :=
  [mk_row (KInt 1) 37.1234567%float (-122.5)%float;
   mk_row (KInt 2) 38%float (-121)%float;
   mk_row (KInt 3) 39.5%float (-120.25)%float].
Definition demo_args : fetch_args :=
  {| url_template_kwargs := {[ "api_key" := "K" ]};
     decimal_places_to_round := 5;
     max_locations_per_batch := 2;
     pause_duration := 0.02%float;
     url_template := "https://elevation.test/json?locations={}&key={api_key}";
     proxies := ∅ |}.
Definition demo_body_1 : json_body := mk_json [mk_entry 10%float; mk_entry 20%float].
Definition demo_body_2 : json_body := mk_json [mk_entry 30%float].
Definition demo_url_2 : string :=
  "https://elevation.test/json?locations=39.50000,-120.25000&key=K".
Definition demo_state : state :=
  {| frame := mk_frame demo_rows None;
     graph := mk_graph [] [];
     vars := mk_locals None None [];
     cache := {[ demo_url_2 := demo_body_2 ]};
     network := [Responds (mk_response 200 "OK" (Some demo_body_1))];
     trace := [] |}.

(** Every chunk has its URL in the cache [c]; [js] are the cached bodies. *)
Definition all_cached (a : fetch_args) (chunks : list (list row))
    (c : gmap string json_body) (js : list json_body) : Prop :=
  Forall2 (fun chunk j => exists url, request_url a chunk = Ok url /\ c !! url = Some j)
          chunks js.

Definition is_log (e : event) : Prop := exists m, e = EvLog m.

(** Two pairs, one per batch; the second request of the first run fails. *)
Definition flaky_args : fetch_args :=
  {| url_template_kwargs := {[ "api_key" := "K" ]};
     decimal_places_to_round := 5;
     max_locations_per_batch := 1;
     pause_duration := 0.02%float;
     url_template := "https://elevation.test/json?locations={}&key={api_key}";
     proxies := ∅ |}.
Definition flaky_state : state :=
  {| frame := mk_frame (take 2 demo_rows) None;
     graph := mk_graph [] [];
     vars := mk_locals None None [];
     cache := ∅;
     network := [Responds (mk_response 200 "OK" (Some (mk_json [mk_entry 10%float])));
                 Fails "read timed out";
                 Responds (mk_response 200 "OK" (Some (mk_json [mk_entry 20%float])))];
     trace := [] |}.

(** One pair, one batch, nothing cached. *)
Definition lone_state (net : list http_outcome) : state :=
  {| frame := mk_frame (take 1 demo_rows) None;
     graph := mk_graph [] [];
     vars := mk_locals None None [];
     cache := ∅;
     network := net;
     trace := [] |}.

(** The edges after the loop over [todo], and the exception that stopped
    it, if any: a pure reading of the loop, to reason about it. *)
Fixpoint grade_all (G : Graph) (add_absolute : bool) (todo : list edge) :
    list edge * option exn :=
  match todo with
  | [] => ([], None)
  | e :: rest =>
      match graded G add_absolute e with
      | Raise x => (e :: rest, Some x)
      | Ok data =>
          let (rest', stop) := grade_all G add_absolute rest in
          (mk_edge (e_src e) (e_dst e) data :: rest', stop)
      end
  end.

Definition result_of_stop (stop : option exn) : result unit :=
  match stop with None => Ok tt | Some x => Raise x end.

(** The grade the annotator stores for an edge from a node of elevation
    [elevation_u] to a node of elevation [elevation_v], [length_] long. *)
Definition grade_of (elevation_u elevation_v length_ : float) : float :=
  PyFloat.py_round (PrimFloat.div (PrimFloat.sub elevation_v elevation_u) length_) 4.

(** The endpoints of the edge carry an elevation. *)
Definition elevated_ends (G : Graph) (e : edge) : Prop :=
  (exists x, node_elevation G (e_src e) = Ok x) /\
  (exists x, node_elevation G (e_dst e) = Ok x).

(** The edge has a length attribute of the given kind. *)
Definition positive_length (e : edge) : Prop :=
  exists L, e_data e !! "length" = Some L /\ PrimFloat.ltb 0 L = true.
Definition nonzero_length (e : edge) : Prop :=
  exists L, e_data e !! "length" = Some L /\ PrimFloat.eqb L 0 = false.

(** Every node of the graph carries an elevation attribute. *)
Definition all_nodes_elevated (G : Graph) : Prop :=
  Forall (fun nd : node_key * attrs => is_Some (nd.2 !! "elevation")) (g_nodes G).

(** The endpoints of every edge are nodes of the graph, as networkx
    keeps them. *)
Definition edges_in_graph (G : Graph) : Prop :=
  Forall (fun e => e_src e ∈ (g_nodes G).*1 /\ e_dst e ∈ (g_nodes G).*1) (g_edges G).

(** Two nodes, at 100 m and 110 m, joined by an edge of 50 m each way. *)
Definition hill_nodes : list (node_key * attrs) :=
  [(KInt 1, {[ "y" := 37.5%float; "x" := (-122.25)%float; "elevation" := 100%float ]});
   (KInt 2, {[ "y" := 37.75%float; "x" := (-122.5)%float; "elevation" := 110%float ]})].
Definition hill_graph : Graph :=
  mk_graph hill_nodes
    [mk_edge (KInt 1) (KInt 2) {[ "length" := 50%float; "oneway" := 0%float ]};
     mk_edge (KInt 2) (KInt 1) {[ "length" := 50%float; "oneway" := 0%float ]}].
Definition state_of_graph (G : Graph) : state :=
  {| frame := mk_frame [] None;
     graph := G;
     vars := mk_locals None None [];
     cache := ∅;
     network := [];
     trace := [] |}.

(** The same nodes; the first edge the loop visits has length zero. *)
Definition ford_graph : Graph :=
  mk_graph hill_nodes
    [mk_edge (KInt 1) (KInt 1) {[ "length" := 0%float ]};
     mk_edge (KInt 1) (KInt 2) {[ "length" := 50%float ]}].

(** The same nodes; the second of three edges has length zero. *)
Definition washout_graph : Graph :=
  mk_graph hill_nodes
    [mk_edge (KInt 1) (KInt 2) {[ "length" := 50%float ]};
     mk_edge (KInt 2) (KInt 1) {[ "length" := 0%float ]};
     mk_edge (KInt 2) (KInt 1) {[ "length" := 50%float ]}].

(** A graph whose nodes are named by strings. *)
Definition named_graph : Graph :=
  mk_graph
    [(KStr "depot", {[ "y" := 37.5%float; "x" := (-122.25)%float ]});
     (KStr "summit", {[ "y" := 37.75%float; "x" := (-122.5)%float ]})]
    [].

(** The hill graph, surveyed through a template that takes the locations
    string and the key as the fetch passes them. *)
Definition survey_args : node_args :=
  {| api_key := "K";
     node_max_locations_per_batch := 350;
     node_pause_duration := 0.02%float;
     node_url_template := "https://elevation.test/json?locations={}&key={api_key}";
     node_proxies := ∅ |}.
Definition survey_state : state :=
  {| frame := mk_frame [] None;
     graph := hill_graph;
     vars := mk_locals None None [];
     cache := ∅;
     network := [Responds (mk_response 200 "OK"
                   (Some (mk_json [mk_entry 123.45678%float; mk_entry 99.9994%float])))];
     trace := [] |}.

(** The arguments [a] with another batch size, another number of
    decimal places or another pause. *)
Definition with_batch_size (per_batch : Z) (a : fetch_args) : fetch_args :=
  mk_fetch_args (url_template_kwargs a) (decimal_places_to_round a) per_batch
                (pause_duration a) (url_template a) (proxies a).
Definition with_places (places : Z) (a : fetch_args) : fetch_args :=
  mk_fetch_args (url_template_kwargs a) places (max_locations_per_batch a)
                (pause_duration a) (url_template a) (proxies a).
Definition with_pause (seconds : float) (a : fetch_args) : fetch_args :=
  mk_fetch_args (url_template_kwargs a) (decimal_places_to_round a)
                (max_locations_per_batch a) seconds (url_template a) (proxies a).

(** Every request among the events [t] was issued with the proxies of
    [a], directly after a pause of [pause_duration a], itself directly
    after the log line that announces the request's URL. *)
Definition requests_paced (a : fetch_args) (t : list event) : Prop :=
  forall (i : nat) (url : string) (px : gmap string string),
    t !! i = Some (EvGet url px) ->
    px = proxies a /\
    exists j : nat,
      i = S (S j) /\
      t !! j = Some (EvLog (LogRequesting url)) /\
      t !! S j = Some (EvSleep (pause_duration a)).

(** What a stretch of the fetch may do to the collaborators: the cache
    keeps every entry it had, the new events hold at most [n] requests,
    each of them paced, and every new cache entry is under a URL that
    was requested. *)
Definition batch_effects (a : fetch_args) (n : nat) (s s' : state) : Prop :=
  cache s ⊆ cache s' /\
  exists t : list event,
    trace s' = (trace s ++ t)%list /\
    (length (network_calls t) <= n)%nat /\
    requests_paced a t /\
    forall (url : string) (j : json_body),
      cache s' !! url = Some j ->
      cache s !! url = Some j \/ EvGet url (proxies a) ∈ t.

(** The cache and the network are as before, and no request was issued
    in between. *)
Definition untouched (s s' : state) : Prop :=
  cache s' = cache s /\ network s' = network s /\
  network_calls (trace s') = network_calls (trace s).

(** Three pairs, two per batch, nothing cached: the server answers the
    first request with one result and the second with two. *)
Definition skewed_state : state :=
  {| frame := mk_frame demo_rows None;
     graph := mk_graph [] [];
     vars := mk_locals None None [];
     cache := ∅;
     network := [Responds (mk_response 200 "OK" (Some (mk_json [mk_entry 11%float])));
                 Responds (mk_response 200 "OK"
                   (Some (mk_json [mk_entry 30%float; mk_entry 31%float])))];
     trace := [] |}.

(** A graph whose second node has no ['x']. *)
Definition uncharted_graph : Graph :=
  mk_graph
    [(KInt 1, {[ "y" := 37.5%float; "x" := (-122.25)%float ]});
     (KInt 2, {[ "y" := 37.75%float ]})]
    [].

(* ===================================================================== *)
(** * Properties *)
(* ===================================================================== *)

(** ** The library models on sample values *)

Example py_round_grade : PyFloat.py_round 0.123456%float 4 = 0.1235%float.
Proof. vm_compute. reflexivity. Qed.
Example py_round_binary : PyFloat.py_round 2.675%float 2 = 2.67%float.
Proof. vm_compute. reflexivity. Qed.
Example py_round_neg_zero : PyFloat.py_round (-0.00001)%float 4 = (-0)%float.
Proof. vm_compute. reflexivity. Qed.
Example py_round_large : PyFloat.py_round 4503599627370.4965%float 4 = 4503599627370.496%float.
Proof. vm_compute. reflexivity. Qed.
Example np_round_elevation : PyFloat.np_round 123.45678%float 3 = 123.457%float.
Proof. vm_compute. reflexivity. Qed.
Example format_fixed_lat : PyFloat.format_fixed 5 37.1234567%float = "37.12346".
Proof. vm_compute. reflexivity. Qed.
Example format_fixed_lon : PyFloat.format_fixed 5 (-122.5)%float = "-122.50000".
Proof. vm_compute. reflexivity. Qed.
Example format_fixed_tie : PyFloat.format_fixed 0 2.5%float = "2".
Proof. vm_compute. reflexivity. Qed.
Example format_fixed_small : PyFloat.format_fixed 2 (-0.001)%float = "-0.00".
Proof. vm_compute. reflexivity. Qed.

Example format_positional :
  PyFormat.format "a{}b{api_key}" ["L"] {[ "api_key" := "K" ]} = Ok "aLbK".
Proof. vm_compute. reflexivity. Qed.
Example format_named_missing :
  PyFormat.format "a{locations}b{api_key}" ["L"] {[ "api_key" := "K" ]} = Raise (KeyError "locations").
Proof. vm_compute. reflexivity. Qed.
Example format_auto_exhausted :
  PyFormat.format "a{}b{}" ["L"] {[ "api_key" := "K" ]} = Raise (IndexError 1).
Proof. vm_compute. reflexivity. Qed.
Example format_escapes : PyFormat.format "{{{0}}}" ["L"] ∅ = Ok "{L}".
Proof. vm_compute. reflexivity. Qed.

(** ** Batching *)

Section Batching.

Lemma ceil_div_step (x step : Z) :
  0 < step -> (x + step + step - 1) / step = (x + step - 1) / step + 1.
Proof.
  intros Hstep.
  replace (x + step + step - 1) with ((x + step - 1) + 1 * step) by lia.
  rewrite Z.div_add by lia. reflexivity.
Qed.

(** With a positive step and enough fuel, the range is the arithmetic
    progression of [ceil((stop - start) / step)] values. *)
Lemma range_from_progression (fuel : nat) (start stop step : Z) :
  0 < step ->
  stop - start <= Z.of_nat fuel ->
  range_from fuel start stop step =
    (fun k : nat => start + Z.of_nat k * step) <$>
      seq 0 (Z.to_nat ((stop - start + step - 1) / step)).
Proof.
  intros Hstep. revert start.
  induction fuel as [|fuel IH]; intros start Hfuel.
  - assert ((stop - start + step - 1) / step <= 0) as Hz.
    { apply Z.lt_succ_r. apply Z.div_lt_upper_bound; lia. }
    replace (Z.to_nat _) with O by lia. reflexivity.
  - cbn [range_from].
    replace (0 <? step) with true by (symmetry; apply Z.ltb_lt; lia).
    destruct (start <? stop) eqn:Hlt.
    + apply Z.ltb_lt in Hlt.
      rewrite IH by lia.
      assert (stop - start + step - 1 = (stop - (start + step)) + step + step - 1) as -> by lia.
      rewrite ceil_div_step by lia.
      assert (0 <= (stop - (start + step) + step - 1) / step) as Hnn.
      { apply Z.div_pos; lia. }
      rewrite Z2Nat.inj_add by lia.
      replace (Z.to_nat 1) with 1%nat by reflexivity.
      rewrite Nat.add_1_r. cbn [seq fmap list_fmap].
      f_equal; [lia|].
      rewrite <- fmap_S_seq, <- list_fmap_compose.
      apply list_fmap_ext. intros _ k _. cbn. lia.
    + apply Z.ltb_ge in Hlt.
      assert ((stop - start + step - 1) / step <= 0) as Hz.
      { apply Z.lt_succ_r. apply Z.div_lt_upper_bound; lia. }
      replace (Z.to_nat _) with O by lia. reflexivity.
Qed.

Lemma batch_count_Z (n b : nat) :
  (0 < b)%nat ->
  Z.to_nat ((Z.of_nat n - 0 + Z.of_nat b - 1) / Z.of_nat b) = batch_count n b.
Proof.
  intros Hb. unfold batch_count.
  replace (Z.of_nat n - 0 + Z.of_nat b - 1) with (Z.of_nat (n + b - 1)) by lia.
  rewrite <- Nat2Z.inj_div. apply Nat2Z.id.
Qed.

(** The batches in closed form. *)
Lemma batches_closed_form (rows : list row) (per_batch : Z) :
  0 < per_batch ->
  batches rows per_batch =
    Ok ((fun k : nat => take (Z.to_nat per_batch) (drop (k * Z.to_nat per_batch) rows)) <$>
          seq 0 (batch_count (length rows) (Z.to_nat per_batch))).
Proof.
  intros Hb. unfold batches, py_range.
  replace (per_batch =? 0) with false by (symmetry; apply Z.eqb_neq; lia).
  rewrite range_from_progression by lia.
  f_equal. rewrite <- list_fmap_compose.
  rewrite <- (batch_count_Z (length rows) (Z.to_nat per_batch)) by lia.
  rewrite Z2Nat.id by lia.
  apply list_fmap_ext. intros _ k _. cbn. unfold iloc.
  f_equal; [f_equal; lia|f_equal; lia].
Qed.

Lemma concat_slices (rows : list row) (b count start : nat) :
  concat ((fun k : nat => take b (drop (k * b) rows)) <$> seq start count) =
  take (count * b) (drop (start * b) rows).
Proof.
  revert start. induction count as [|count IH]; intros start; [done|].
  cbn [seq fmap list_fmap concat]. rewrite IH.
  replace (S start * b)%nat with (start * b + b)%nat by lia.
  rewrite <- drop_drop, take_take_drop. f_equal.
Qed.

Lemma batch_count_covers (n b : nat) : (0 < b)%nat -> (n <= batch_count n b * b)%nat.
Proof.
  intros Hb. unfold batch_count.
  pose proof (Nat.div_mod_eq (n + b - 1) b) as Hdm.
  pose proof (Nat.mod_upper_bound (n + b - 1) b ltac:(lia)). nia.
Qed.

Lemma batch_count_tight (n b k : nat) :
  (0 < b)%nat -> (k < batch_count n b)%nat -> (k * b < n)%nat.
Proof.
  intros Hb. unfold batch_count. intros Hk.
  pose proof (Nat.div_mod_eq (n + b - 1) b) as Hdm.
  pose proof (Nat.mod_upper_bound (n + b - 1) b ltac:(lia)). nia.
Qed.

Lemma last_batch_size (n b k : nat) :
  (0 < b)%nat -> S k = batch_count n b ->
  (n - k * b = if (n mod b =? 0)%nat then b else n mod b)%nat.
Proof.
  intros Hb. unfold batch_count. intros Hk.
  pose proof (Nat.div_mod_eq (n + b - 1) b) as Hdm.
  pose proof (Nat.mod_upper_bound (n + b - 1) b ltac:(lia)) as Hub.
  pose proof (Nat.div_mod_eq n b) as Hn.
  pose proof (Nat.mod_upper_bound n b ltac:(lia)) as Hnb.
  rewrite <- Hk in Hdm.
  set (q := (n / b)%nat) in *. set (r := (n mod b)%nat) in *.
  set (r' := ((n + b - 1) mod b)%nat) in *.
  destruct (Nat.eqb_spec r 0) as [Hz|Hz].
  - assert (S k = q) by nia. nia.
  - assert (k = q) by nia. nia.
Qed.

End Batching.

(** The batches are the consecutive slices of [B] rows. *)
Lemma batches_slices (rows : list row) (per_batch : Z) :
  0 < per_batch ->
  let B := Z.to_nat per_batch in
  exists chunks : list (list row),
    batches rows per_batch = Ok chunks /\
    length chunks = batch_count (length rows) B /\
    concat chunks = rows /\
    forall (k : nat) (chunk : list row),
      chunks !! k = Some chunk -> chunk = take B (drop (k * B) rows).
Proof.
  intros Hpos B.
  eexists. split; [apply batches_closed_form; exact Hpos|].
  fold B. rewrite length_fmap, length_seq. split; [reflexivity|]. split.
  - rewrite concat_slices. cbn [drop Nat.mul].
    apply take_ge. apply batch_count_covers. unfold B. lia.
  - intros k chunk Hk. rewrite list_lookup_fmap in Hk.
    destruct (seq 0 (batch_count (length rows) B) !! k) as [k'|] eqn:Hseq; [|discriminate].
    apply lookup_seq in Hseq as [-> _]. cbn in Hk. injection Hk as <-. reflexivity.
Qed.

(** C3.  For [N] coordinate pairs and a batch size [B > 0], the loop of
    the fetch visits exactly [ceil(N / B)] batches; they are consecutive
    slices of the input (batch [k] starts at row [k * B]) that together
    make up the input again; each has at most [B] rows, every batch but
    the last has exactly [B], and the last has [N mod B] rows, or [B] when
    [B] divides [N]. *)
Theorem batches_partition (rows : list row) (per_batch : Z) :
  0 < per_batch ->
  let B := Z.to_nat per_batch in
  let N := length rows in
  exists chunks : list (list row),
    batches rows per_batch = Ok chunks /\
    length chunks = batch_count N B /\
    (N <= batch_count N B * B /\
     forall c : nat, N <= c * B -> batch_count N B <= c)%nat /\
    concat chunks = rows /\
    forall (k : nat) (chunk : list row),
      chunks !! k = Some chunk ->
      chunk = take B (drop (k * B) rows) /\
      (length chunk <= B)%nat /\
      (S k < length chunks -> length chunk = B)%nat /\
      (S k = length chunks ->
       length chunk = if (N mod B =? 0)%nat then B else (N mod B)%nat).
Proof.
  intros Hpos B N.
  assert (0 < B)%nat as HB by (unfold B; lia).
  eexists. split; [apply batches_closed_form; exact Hpos|].
  fold B N. rewrite length_fmap, length_seq.
  split; [reflexivity|].
  split.
  { split; [apply batch_count_covers; exact HB|].
    intros c Hc. destruct (decide (batch_count N B <= c)%nat) as [|Hn]; [assumption|].
    assert (c < batch_count N B)%nat as Hlt by lia.
    apply (batch_count_tight N B c HB) in Hlt. lia. }
  split.
  { rewrite concat_slices. cbn [drop Nat.mul].
    apply take_ge. apply batch_count_covers. exact HB. }
  intros k chunk Hk.
  rewrite list_lookup_fmap in Hk.
  destruct (seq 0 (batch_count N B) !! k) as [k'|] eqn:Hseq; [|discriminate].
  apply lookup_seq in Hseq as [-> Hlt]. cbn in Hk. injection Hk as <-.
  pose proof (batch_count_tight N B k HB Hlt) as Htight.
  split; [reflexivity|].
  rewrite length_take, length_drop. fold N.
  split; [lia|]. split.
  - intros Hnext.
    pose proof (batch_count_tight N B (S k) HB Hnext). lia.
  - intros Hlast.
    rewrite <- (last_batch_size N B k HB Hlast).
    pose proof (batch_count_covers N B HB). nia.
Qed.

Lemma batches_partition_witness :
  0 < 2 /\
  exists chunks : list (list row),
    batches five_rows 2 = Ok chunks /\ length chunks = 3%nat /\
    (length <$> chunks) = [2; 2; 1]%nat.
Proof.
  split; [lia|].
  destruct (batches_partition five_rows 2 ltac:(lia)) as (chunks & Hb & Hlen & _).
  exists chunks. split; [exact Hb|]. split; [exact Hlen|].
  vm_compute in Hb. injection Hb as <-. reflexivity.
Defined.

(** The end-to-end scenario: 700 rows make two batches of 350 and one
    batch of 1000. *)
Example batch_count_700 : batch_count 700 350 = 2%nat /\ batch_count 700 1000 = 1%nat.
Proof. split; reflexivity. Qed.

(** ** What a computation may change and raise *)

Section Respects.

Context (R : state -> state -> Prop) (E : exn -> Prop).
Context (R_refl : forall s, R s s) (R_trans : forall s1 s2 s3, R s1 s2 -> R s2 s3 -> R s1 s3).

Lemma respects_ret {A} (a : A) : respects R E (ret a).
Proof. intros s r s' [= <- <-]. split; [apply R_refl|discriminate]. Qed.

Lemma respects_raise {A} (e : exn) : E e -> respects R E (@raise A e).
Proof. intros He s r s' [= <- <-]. split; [apply R_refl|]. intros e' [= <-]. exact He. Qed.

Lemma respects_lift {A} (x : result A) :
  (forall e, x = Raise e -> E e) -> respects R E (lift x).
Proof. intros Hx s r s' [= <- <-]. split; [apply R_refl|exact Hx]. Qed.

Lemma respects_get_state : respects R E get_state.
Proof. intros s r s' [= <- <-]. split; [apply R_refl|discriminate]. Qed.

Lemma respects_modify (f : state -> state) :
  (forall s, R s (f s)) -> respects R E (modify f).
Proof. intros Hf s r s' [= <- <-]. split; [apply Hf|discriminate]. Qed.

Lemma respects_bind {A B} (m : M A) (k : A -> M B) :
  respects R E m -> (forall a, respects R E (k a)) -> respects R E (bind m k).
Proof.
  intros Hm Hk s r s'. unfold bind.
  destruct (m s) as [[a|e] s1] eqn:Hrun; intros Hr.
  - destruct (Hm _ _ _ Hrun) as [H1 _]. destruct (Hk a _ _ _ Hr) as [H2 He].
    split; [eapply R_trans; eassumption|exact He].
  - injection Hr as <- <-. destruct (Hm _ _ _ Hrun) as [H1 He].
    split; [exact H1|]. intros e' [= <-]. apply He. reflexivity.
Qed.

Lemma respects_try_except {A} (body : M A) (handler : exn -> M A) :
  respects R any_exn body -> (forall e, respects R E (handler e)) ->
  respects R E (try_except body handler).
Proof.
  intros Hb Hh s r s'. unfold try_except.
  destruct (body s) as [[a|e] s1] eqn:Hrun; intros Hr.
  - injection Hr as <- <-. destruct (Hb _ _ _ Hrun) as [H1 _].
    split; [exact H1|discriminate].
  - destruct (Hb _ _ _ Hrun) as [H1 _]. destruct (Hh e _ _ _ Hr) as [H2 He].
    split; [eapply R_trans; eassumption|exact He].
Qed.

Lemma respects_for_each {A} (xs : list A) (body : A -> M unit) :
  (forall x, respects R E (body x)) -> respects R E (for_each xs body).
Proof.
  intros Hbody. induction xs as [|x xs IH]; cbn [for_each].
  - apply respects_ret.
  - apply respects_bind; [apply Hbody|intros _; exact IH].
Qed.

End Respects.

Lemma respects_weaken {A} (R : state -> state -> Prop) (E E' : exn -> Prop) (m : M A) :
  (forall e, E e -> E' e) -> respects R E m -> respects R E' m.
Proof.
  intros HE Hm s r s' Hrun. destruct (Hm _ _ _ Hrun) as [HR He].
  split; [exact HR|]. intros e Hr. apply HE, He, Hr.
Qed.

Lemma same_objects_refl (s : state) : same_objects s s.
Proof. split; reflexivity. Qed.

Lemma same_objects_trans (s1 s2 s3 : state) :
  same_objects s1 s2 -> same_objects s2 s3 -> same_objects s1 s3.
Proof. intros [H1 H2] [H3 H4]. split; congruence. Qed.

Lemma prepend_raise (prefix : string) (r : result string) (e : exn) :
  PyFormat.prepend prefix r = Raise e -> r = Raise e.
Proof. destruct r; cbn; congruence. Qed.

Lemma field_value_not_a_mismatch args kwargs num name e :
  PyFormat.field_value args kwargs num name = Raise e -> not_a_mismatch e.
Proof.
  unfold PyFormat.field_value. intros H.
  repeat case_match; simplify_eq; exact I.
Qed.

Lemma format_from_not_a_mismatch args kwargs template :
  forall field num e,
    PyFormat.format_from args kwargs field num template = Raise e -> not_a_mismatch e.
Proof.
  remember (String.length template) as n eqn:Hn.
  revert template Hn.
  induction n as [n IH] using lt_wf_ind. intros template -> field num e.
  destruct template as [|c rest]; cbn [PyFormat.format_from].
  - destruct field; intros [= <-]; exact I.
  - assert (forall f m e', PyFormat.format_from args kwargs f m rest = Raise e' ->
                           not_a_mismatch e') as Hrest.
    { intros f m e'. eapply IH; [|reflexivity]. cbn. lia. }
    assert (forall c' rest' f m e', rest = String c' rest' ->
              PyFormat.format_from args kwargs f m rest' = Raise e' ->
              not_a_mismatch e') as Hrest'.
    { intros c' rest' f m e' ->. eapply IH; [|reflexivity]. cbn. lia. }
    destruct field as [name|].
    + repeat case_match; try (intros [= <-]; exact I); eauto.
      * intros He%prepend_raise. eauto.
      * intros [= <-]. eapply field_value_not_a_mismatch. eassumption.
    + repeat case_match; try (intros [= <-]; exact I); eauto;
        intros He%prepend_raise; eauto.
Qed.

Lemma join_results_not_a_mismatch sep items e :
  (forall x e', x ∈ items -> x = Raise e' -> not_a_mismatch e') ->
  join_results sep items = Raise e -> not_a_mismatch e.
Proof.
  induction items as [|x items IH]; intros Hitems; [discriminate|].
  cbn [join_results]. destruct items as [|y items].
  - intros ->. eapply Hitems; [left|reflexivity].
  - destruct x as [a|e1].
    + destruct (join_results sep (y :: items)) as [b|e2] eqn:Hj; [discriminate|].
      intros [= <-]. apply IH; [|reflexivity].
      intros x e' Hx. apply Hitems. right. exact Hx.
    + intros [= <-]. eapply Hitems; [left|reflexivity].
Qed.

Lemma request_url_not_a_mismatch a chunk e :
  request_url a chunk = Raise e -> not_a_mismatch e.
Proof.
  unfold request_url, locations_of.
  destruct (join_results _ _) as [locations|e1] eqn:Hj.
  - apply format_from_not_a_mismatch.
  - intros [= <-]. eapply join_results_not_a_mismatch; [|exact Hj].
    intros x e' Hx ->. apply list_elem_of_fmap in Hx as (r & Hr & _).
    unfold format_pair in Hr. case_match; simplify_eq. exact I.
Qed.

(** Steps of the proof that a computation [respects] a relation. *)
Ltac respects_step :=
  first
    [ apply respects_bind; [exact same_objects_trans| |intros ?]
    | apply respects_ret; exact same_objects_refl
    | apply respects_get_state; exact same_objects_refl
    | apply respects_modify; intros ?; split; reflexivity
    | apply respects_raise; [exact same_objects_refl|exact I]
    | match goal with
      | |- respects _ _ (match ?x with _ => _ end) => destruct x
      end ].

Lemma log_same_objects E m : respects same_objects E (log m).
Proof. unfold log. respects_step. Qed.

Lemma fetch_batch_same_objects a chunk :
  respects same_objects not_a_mismatch (fetch_batch a chunk).
Proof.
  unfold fetch_batch.
  apply respects_bind; [exact same_objects_trans| |intros url].
  { apply respects_lift; [exact same_objects_refl|]. apply request_url_not_a_mismatch. }
  unfold get_from_cache, assign_response_json, assign_response, extend_results.
  repeat respects_step.
  apply respects_try_except; [exact same_objects_trans| |].
  - unfold time_sleep, requests_get, json_of, save_to_cache.
    repeat first [apply log_same_objects | respects_step].
  - intros e. unfold except_handler.
    repeat first [apply log_same_objects | respects_step].
Qed.

Lemma fetch_batches_same_objects a :
  respects same_objects not_a_mismatch (fetch_batches a).
Proof.
  unfold fetch_batches.
  repeat first [apply log_same_objects | respects_step].
  - apply respects_lift; [exact same_objects_refl|].
    unfold batches, py_range. intros e He.
    repeat case_match; simplify_eq. exact I.
  - apply respects_for_each; [exact same_objects_refl|exact same_objects_trans|].
    intros chunk. apply fetch_batch_same_objects.
Qed.

(** ** The sanity check of the fetch *)

Lemma attach_elevations_run (s : state) :
  attach_elevations s =
    let requested := length (df_rows (frame s)) in
    let received := length (results (vars s)) in
    if bool_decide (received = requested)
    then (Ok tt,
          set_frame (mk_frame (df_rows (frame s)) (Some (elevation <$> results (vars s))))
                    (add_event (EvLog (LogCountsAgree requested received)) s))
    else (Raise (ElevationCountMismatch requested received), s).
Proof.
  unfold attach_elevations, bind, get_state. cbn zeta.
  case_bool_decide; reflexivity.
Qed.

(** The fetch once its loop has run through with as many results as
    there are coordinate pairs. *)
Lemma fetch_after_loop (a : fetch_args) (s s1 : state) :
  fetch_batches a s = (Ok tt, s1) ->
  length (results (vars s1)) = length (df_rows (frame s)) ->
  let out := fetch_elevations_for_latitude_longitude_pairs a s in
  out.1 = Ok tt /\
  df_rows (frame out.2) = df_rows (frame s) /\
  df_elevation (frame out.2) = Some (elevation <$> results (vars s1)).
Proof.
  intros Hloop Hcount. cbn zeta.
  unfold fetch_elevations_for_latitude_longitude_pairs, bind. rewrite Hloop.
  destruct (fetch_batches_same_objects a _ _ _ Hloop) as [[Hframe _] _].
  rewrite attach_elevations_run. cbn zeta. rewrite Hframe.
  rewrite bool_decide_eq_true_2 by exact Hcount. cbn. auto.
Qed.



(** ** One batch, served from the cache or by the network *)

Lemma fetch_batch_hit (a : fetch_args) (chunk : list row) (s : state)
    (url : string) (j : json_body) :
  request_url a chunk = Ok url ->
  cache s !! url = Some j ->
  fetch_batch a chunk s =
    (Ok tt,
     set_vars (mk_locals (response (vars s)) (Some j)
                         (results (vars s) ++ json_results j)) s).
Proof.
  intros Hurl Hhit.
  unfold fetch_batch, bind, lift, get_from_cache, get_state, ret.
  rewrite Hurl. cbn. rewrite Hhit. reflexivity.
Qed.

Lemma fetch_batch_miss_responds (a : fetch_args) (chunk : list row) (s : state)
    (url : string) (r : http_response) (rest : list http_outcome) (j : json_body) :
  request_url a chunk = Ok url ->
  cache s !! url = None ->
  PrimFloat.leb 0 (pause_duration a) = true ->
  network s = Responds r :: rest ->
  body r = Some j ->
  fetch_batch a chunk s =
    (Ok tt,
     mk_state (frame s) (graph s)
       (mk_locals (Some r) (Some j) (results (vars s) ++ json_results j))
       (<[url := j]> (cache s)) rest
       (((trace s ++ [EvLog (LogRequesting url)]) ++ [EvSleep (pause_duration a)])
          ++ [EvGet url (proxies a)])).
Proof.
  intros Hurl Hmiss Hpause Hnet Hbody.
  unfold fetch_batch, bind, lift, get_from_cache, get_state, ret.
  rewrite Hurl. cbn. rewrite Hmiss.
  unfold try_except, bind, log, time_sleep, requests_get, modify, bind, get_state.
  rewrite Hpause. cbn. rewrite Hnet. cbn.
  unfold json_of. rewrite Hbody. reflexivity.
Qed.

Lemma for_each_served (a : fetch_args) chunks c n js c' n' :
  served a chunks c n js c' n' ->
  forall s, cache s = c -> network s = n ->
    exists s', for_each chunks (fetch_batch a) s = (Ok tt, s') /\
               cache s' = c' /\ network s' = n' /\
               frame s' = frame s /\ graph s' = graph s /\
               results (vars s') = (results (vars s) ++ concat (json_results <$> js))%list.
Proof.
  induction 1 as [c n|chunk chunks c n url j js c' n' Hurl Hhit _ IH
                  |chunk chunks c n url r j js c' n' Hurl Hmiss Hpause Hbody _ IH];
    intros s Hc Hn.
  - exists s. cbn. rewrite app_nil_r. repeat split; assumption.
  - cbn [for_each]. unfold bind at 1.
    rewrite (fetch_batch_hit a chunk s url j) by (rewrite ?Hc; assumption).
    destruct (IH (set_vars (mk_locals (response (vars s)) (Some j)
                                      (results (vars s) ++ json_results j)) s))
      as (s' & Hrun & Hc' & Hn' & Hf & Hg & Hres); [assumption..|].
    exists s'. cbn in Hres, Hf, Hg. rewrite <- app_assoc in Hres.
    repeat split; assumption.
  - cbn [for_each]. unfold bind at 1.
    rewrite (fetch_batch_miss_responds a chunk s url r n j)
      by (rewrite ?Hc; assumption).
    match goal with
    | |- context [for_each chunks (fetch_batch a) ?s1] =>
        destruct (IH s1) as (s' & Hrun & Hc' & Hn' & Hf & Hg & Hres)
    end; [cbn; congruence|reflexivity|].
    exists s'. cbn in Hres, Hf, Hg. rewrite <- app_assoc in Hres.
    repeat split; assumption.
Qed.

Lemma batches_ok_nonzero (rows : list row) (per_batch : Z) chunks :
  batches rows per_batch = Ok chunks -> (per_batch =? 0) = false.
Proof.
  unfold batches, py_range. destruct (per_batch =? 0); [discriminate|reflexivity].
Qed.

Lemma fetch_batches_served (a : fetch_args) (s : state) chunks js c' n' :
  batches (df_rows (frame s)) (max_locations_per_batch a) = Ok chunks ->
  served a chunks (cache s) (network s) js c' n' ->
  exists s1, fetch_batches a s = (Ok tt, s1) /\
             cache s1 = c' /\ network s1 = n' /\
             frame s1 = frame s /\ graph s1 = graph s /\
             results (vars s1) = concat (json_results <$> js).
Proof.
  intros Hb Hserved.
  unfold fetch_batches, bind, modify, get_state, log, lift. cbn.
  rewrite (batches_ok_nonzero _ _ _ Hb). cbn. rewrite Hb.
  match goal with
  | |- context [for_each chunks (fetch_batch a) ?s0] =>
      destruct (for_each_served a chunks _ _ js c' n' Hserved s0 eq_refl eq_refl)
        as (s1 & Hrun & Hc & Hn & Hf & Hg & Hres)
  end.
  exists s1. cbn in Hf, Hg, Hres. repeat split; assumption.
Qed.

(** ** Alignment of results with coordinate pairs *)

Lemma lookup_concat_offset {A} (ls : list (list A)) (k : nat) (l : list A) (i : nat) :
  ls !! k = Some l -> (i < length l)%nat ->
  concat ls !! (length (concat (take k ls)) + i)%nat = l !! i.
Proof.
  revert k. induction ls as [|x ls IH]; intros k Hk Hi; [destruct k; discriminate|].
  destruct k as [|k]; cbn in *.
  - injection Hk as ->. apply lookup_app_l. exact Hi.
  - rewrite length_app, <- Nat.add_assoc, lookup_app_r by lia.
    replace (length x + _ - length x)%nat
      with (length (concat (take k ls)) + i)%nat by lia.
    apply IH; assumption.
Qed.

Lemma concat_take_same_length {A B} (xs : list (list A)) (ys : list (list B)) (k : nat) :
  Forall2 (fun x y => length y = length x) xs ys ->
  length (concat (take k ys)) = length (concat (take k xs)).
Proof.
  intros H. revert k. induction H as [|x y xs ys Hxy _ IH]; intros k.
  - destruct k; reflexivity.
  - destruct k as [|k]; [reflexivity|]. cbn. rewrite !length_app, IH, Hxy. reflexivity.
Qed.

Lemma batches_offset (rows : list row) (per_batch : Z) chunks (k : nat) chunk :
  0 < per_batch ->
  batches rows per_batch = Ok chunks ->
  chunks !! k = Some chunk ->
  length (concat (take k chunks)) = (k * Z.to_nat per_batch)%nat.
Proof.
  intros Hpos Hb Hk.
  rewrite batches_closed_form in Hb by exact Hpos. injection Hb as <-.
  rewrite list_lookup_fmap in Hk.
  destruct (seq 0 _ !! k) as [k'|] eqn:Hseq; [|discriminate].
  apply lookup_seq in Hseq as [-> Hlt].
  rewrite <- fmap_take, take_seq, Nat.min_l by lia.
  rewrite concat_slices. rewrite length_take, length_drop.
  pose proof (batch_count_tight (length rows) (Z.to_nat per_batch) k ltac:(lia) Hlt).
  lia.
Qed.

(** C2, as the code has it.  For a positive batch size, when no batch
    fails, that is when every batch in turn is served, by the cache or by
    a response that decodes, and the body that serves a batch holds one
    result per coordinate pair of the batch, the fetch returns, the frame
    keeps its rows and gains an elevation column with exactly one value
    per row, and the value at every position [p] is the elevation of the
    result that the body of batch [p / B] holds at offset [p mod B], which
    is the offset of row [p] in that batch: order is kept within batches
    and across them. *)
Theorem fetch_preserves_order (a : fetch_args) (s : state)
    (chunks : list (list row)) (js : list json_body)
    (c' : gmap string json_body) (n' : list http_outcome) :
  0 < max_locations_per_batch a ->
  batches (df_rows (frame s)) (max_locations_per_batch a) = Ok chunks ->
  served a chunks (cache s) (network s) js c' n' ->
  Forall2 (fun chunk j => length (json_results j) = length chunk) chunks js ->
  let out := fetch_elevations_for_latitude_longitude_pairs a s in
  let rows := df_rows (frame s) in
  let B := Z.to_nat (max_locations_per_batch a) in
  out.1 = Ok tt /\
  df_rows (frame out.2) = rows /\
  exists column : list float,
    df_elevation (frame out.2) = Some column /\
    length column = length rows /\
    forall (p : nat) (r : row),
      rows !! p = Some r ->
      exists chunk j e,
        chunks !! (p / B)%nat = Some chunk /\
        chunk !! (p mod B)%nat = Some r /\
        js !! (p / B)%nat = Some j /\
        json_results j !! (p mod B)%nat = Some e /\
        column !! p = Some (elevation e).
Proof.
  intros Hpos Hb Hserved Hlen out rows B.
  destruct (fetch_batches_served a s chunks js c' n' Hb Hserved)
    as (s1 & Hrun & _ & _ & _ & _ & Hres).
  destruct (batches_slices rows _ Hpos) as (chunks' & Hb' & Hcount & Hconcat & Hslices).
  fold rows in Hb. rewrite Hb in Hb'. injection Hb' as <-.
  fold B in Hcount, Hslices.
  assert (0 < B)%nat as HB by (unfold B; lia).
  assert (Forall2 (fun x y => length y = length x) chunks (json_results <$> js)) as Hlen'.
  { apply Forall2_fmap_r. exact Hlen. }
  assert (length (results (vars s1)) = length rows) as Htotal.
  { rewrite Hres, <- Hconcat.
    pose proof (concat_take_same_length chunks (json_results <$> js) (length chunks) Hlen') as H.
    rewrite take_ge in H by (rewrite <- (Forall2_length _ _ _ Hlen'); lia).
    rewrite take_ge in H by lia. exact H. }
  destruct (fetch_after_loop a s s1 Hrun Htotal) as (Hout & Hrows & Hcol).
  assert (length (elevation <$> results (vars s1)) = length rows) as Hcollen.
  { rewrite length_fmap. exact Htotal. }
  split; [exact Hout|]. split; [exact Hrows|].
  exists (elevation <$> results (vars s1)).
  split; [exact Hcol|]. split; [exact Hcollen|].
  intros p r Hp.
  pose proof (lookup_lt_Some _ _ _ Hp) as Hplt.
  pose proof (Nat.div_mod_eq p B) as Hdm.
  pose proof (Nat.mod_upper_bound p B ltac:(lia)) as Hmod.
  set (k := (p / B)%nat) in *. set (i := (p mod B)%nat) in *.
  assert (k < length chunks)%nat as Hk.
  { rewrite Hcount. destruct (decide (k < batch_count (length rows) B)%nat) as [|Hn]; [assumption|].
    pose proof (batch_count_covers (length rows) B HB). nia. }
  destruct (lookup_lt_is_Some_2 chunks k Hk) as [chunk Hchunk].
  pose proof (Hslices k chunk Hchunk) as Hslice.
  assert (chunk !! i = Some r) as Hi.
  { rewrite Hslice, lookup_take_lt, lookup_drop by lia.
    replace (k * B + i)%nat with p by lia. exact Hp. }
  destruct (Forall2_lookup_l _ _ _ _ _ Hlen Hchunk) as (j & Hj & Hjlen).
  assert (i < length (json_results j))%nat as Hij.
  { rewrite Hjlen. eapply lookup_lt_Some. exact Hi. }
  destruct (lookup_lt_is_Some_2 _ _ Hij) as [e He].
  exists chunk, j, e. repeat split; try assumption.
  rewrite list_lookup_fmap, Hres.
  assert (p = length (concat (take k (json_results <$> js))) + i)%nat as Heq.
  { rewrite (concat_take_same_length chunks _ k Hlen').
    rewrite (batches_offset rows _ chunks k chunk Hpos Hb Hchunk). fold B. lia. }
  rewrite Heq.
  rewrite (lookup_concat_offset _ k (json_results j) i);
    [rewrite He; reflexivity| |exact Hij].
  rewrite list_lookup_fmap, Hj. reflexivity.
Qed.

Lemma demo_served :
  served demo_args [take 2 demo_rows; drop 2 demo_rows]
         (cache demo_state) (network demo_state) [demo_body_1; demo_body_2]
         (<["https://elevation.test/json?locations=37.12346,-122.50000|38.00000,-121.00000&key=K"
            := demo_body_1]> (cache demo_state)) [].
Proof.
  eapply served_miss; [vm_compute; reflexivity..|].
  eapply served_hit; [vm_compute; reflexivity..|].
  apply served_nil.
Qed.

Lemma fetch_preserves_order_witness :
  (fetch_elevations_for_latitude_longitude_pairs demo_args demo_state).1 = Ok tt /\
  exists column : list float,
    df_elevation (frame (fetch_elevations_for_latitude_longitude_pairs
                           demo_args demo_state).2) = Some column /\
    length column = 3%nat.
Proof.
  destruct (fetch_preserves_order demo_args demo_state
              [take 2 demo_rows; drop 2 demo_rows] [demo_body_1; demo_body_2]
              _ _ ltac:(reflexivity) ltac:(vm_compute; reflexivity) demo_served
              ltac:(repeat constructor))
    as (Hok & _ & column & Hcol & Hlen & _).
  split; [exact Hok|]. exists column. split; [exact Hcol|exact Hlen].
Defined.

(** C2 as stated fails: no batch fails, and yet a pair gets the elevation
    of another batch, or none at all.  In the first run both requests are
    answered and decode, the first with one result for the two pairs of
    its batch and the second with two results for its one pair; the
    totals agree, the fetch returns, and the second pair, which is in the
    first batch, carries the first elevation of the second response.  In
    the second run the batch size is negative: the loop visits no batch,
    so none fails, and the fetch raises the count mismatch. *)
Lemma short_batch_shifts_elevations :
  let short := mk_json [mk_entry 11%float] in
  let long := mk_json [mk_entry 30%float; mk_entry 31%float] in
  let out := fetch_elevations_for_latitude_longitude_pairs demo_args skewed_state in
  let none := fetch_elevations_for_latitude_longitude_pairs
                (with_batch_size (-350) demo_args) demo_state in
  (batches (df_rows (frame skewed_state)) (max_locations_per_batch demo_args) =
     Ok [take 2 demo_rows; drop 2 demo_rows] /\
   (exists c', served demo_args [take 2 demo_rows; drop 2 demo_rows]
                      (cache skewed_state) (network skewed_state) [short; long] c' []) /\
   out.1 = Ok tt /\
   df_elevation (frame out.2) = Some [11; 30; 31]%float /\
   (elevation <$> json_results long) !! 0%nat = Some 30%float /\
   take 2 demo_rows !! 1%nat = df_rows (frame skewed_state) !! 1%nat) /\
  (batches (df_rows (frame demo_state)) (-350) = Ok [] /\
   served (with_batch_size (-350) demo_args) []
          (cache demo_state) (network demo_state) [] (cache demo_state) (network demo_state) /\
   none.1 = Raise (ElevationCountMismatch 3 0)).
Proof.
  cbn zeta. split.
  - split; [vm_compute; reflexivity|]. split.
    + eexists.
      eapply served_miss; [vm_compute; reflexivity..|].
      eapply served_miss; [vm_compute; reflexivity..|].
      apply served_nil.
    + vm_compute. repeat split; reflexivity.
  - split; [vm_compute; reflexivity|]. split; [apply served_nil|].
    vm_compute. reflexivity.
Qed.

Example demo_fetch_column :
  df_elevation (frame (fetch_elevations_for_latitude_longitude_pairs
                         demo_args demo_state).2) = Some [10; 20; 30]%float.
Proof. vm_compute. reflexivity. Qed.

(** ** The cache *)

(** On a miss with a valid pause the fetcher logs, pauses and issues the
    request, whatever the network then does. *)
Lemma fetch_batch_miss_events (a : fetch_args) (chunk : list row) (s : state)
    (url : string) :
  request_url a chunk = Ok url ->
  cache s !! url = None ->
  PrimFloat.leb 0 (pause_duration a) = true ->
  exists later : list event,
    trace (fetch_batch a chunk s).2 =
      (trace s ++ [EvLog (LogRequesting url); EvSleep (pause_duration a);
                   EvGet url (proxies a)] ++ later)%list.
Proof.
  intros Hurl Hmiss Hpause.
  unfold fetch_batch, bind, lift, get_from_cache, get_state, ret.
  rewrite Hurl. cbn. rewrite Hmiss.
  unfold try_except, bind, log, time_sleep, requests_get, modify, bind, get_state.
  rewrite Hpause. cbn.
  unfold except_handler, json_of, bind, log, modify, get_state, raise, ret.
  destruct (network s) as [|[r|msg] rest]; cbn;
    repeat (case_match; cbn); simplify_eq; cbn;
    rewrite <- ?app_assoc; cbn; eexists; f_equal; f_equal; f_equal; reflexivity.
Qed.

(** A served run only adds entries to the cache, and leaves every chunk
    cached with the body that served it. *)
Lemma served_fills_cache (a : fetch_args) chunks c n js c' n' :
  served a chunks c n js c' n' ->
  c ⊆ c' /\ forall c2, c' ⊆ c2 -> all_cached a chunks c2 js.
Proof.
  induction 1 as [c n|chunk chunks c n url j js c' n' Hurl Hhit _ [IHsub IHall]
                  |chunk chunks c n url r j js c' n' Hurl Hmiss Hpause Hbody _ [IHsub IHall]].
  - split; [reflexivity|]. intros c2 _. constructor.
  - split; [exact IHsub|]. intros c2 Hc2. constructor; [|apply IHall; exact Hc2].
    exists url. split; [exact Hurl|].
    eapply lookup_weaken; [exact Hhit|]. etransitivity; eassumption.
  - split.
    + etransitivity; [|exact IHsub]. apply insert_subseteq. exact Hmiss.
    + intros c2 Hc2. constructor; [|apply IHall; exact Hc2].
      exists url. split; [exact Hurl|].
      eapply lookup_weaken; [apply lookup_insert_eq|]. etransitivity; eassumption.
Qed.

(** A loop over chunks that are all cached changes the local variables
    only: nothing is logged, no pause, no request, no new cache entry. *)
Lemma for_each_all_cached (a : fetch_args) chunks js :
  forall s, all_cached a chunks (cache s) js ->
    exists l : locals,
      for_each chunks (fetch_batch a) s = (Ok tt, set_vars l s) /\
      results l = (results (vars s) ++ concat (json_results <$> js))%list.
Proof.
  revert js. induction chunks as [|chunk chunks IH]; intros js s Hall.
  - apply Forall2_nil_inv_l in Hall as ->. exists (vars s). cbn.
    rewrite app_nil_r. split; [destruct s; reflexivity|reflexivity].
  - apply Forall2_cons_inv_l in Hall as (j & js' & (url & Hurl & Hhit) & Hall & ->).
    cbn [for_each]. unfold bind at 1.
    rewrite (fetch_batch_hit a chunk s url j Hurl Hhit).
    destruct (IH js' (set_vars (mk_locals (response (vars s)) (Some j)
                                          (results (vars s) ++ json_results j)) s) Hall)
      as (l & Hrun & Hres).
    exists l. rewrite Hrun. cbn in Hres. rewrite <- app_assoc in Hres.
    split; [reflexivity|exact Hres].
Qed.

Lemma fetch_batches_all_cached (a : fetch_args) (s : state) chunks js :
  batches (df_rows (frame s)) (max_locations_per_batch a) = Ok chunks ->
  all_cached a chunks (cache s) js ->
  exists l : locals,
    fetch_batches a s =
      (Ok tt,
       mk_state (frame s) (graph s) l (cache s) (network s)
                (trace s ++ [EvLog (LogCallCount (length (df_rows (frame s)))
                                                 (max_locations_per_batch a))])) /\
    results l = concat (json_results <$> js).
Proof.
  intros Hb Hall.
  unfold fetch_batches, bind, modify, get_state, log, lift. cbn.
  rewrite (batches_ok_nonzero _ _ _ Hb). cbn. rewrite Hb.
  match goal with
  | |- context [for_each chunks (fetch_batch a) ?s0] =>
      destruct (for_each_all_cached a chunks js s0 Hall) as (l & Hrun & Hres)
  end.
  exists l. rewrite Hrun. split; [reflexivity|exact Hres].
Qed.

(** The fetch when every chunk is cached: the outcome is decided by the
    cached bodies, and besides the frame only the local variables and the
    log change. *)
Lemma fetch_all_cached (a : fetch_args) (s : state) chunks js :
  batches (df_rows (frame s)) (max_locations_per_batch a) = Ok chunks ->
  all_cached a chunks (cache s) js ->
  let N := length (df_rows (frame s)) in
  let got := concat (json_results <$> js) in
  exists l : locals,
    fetch_elevations_for_latitude_longitude_pairs a s =
      if bool_decide (length got = N)
      then (Ok tt,
            mk_state (mk_frame (df_rows (frame s)) (Some (elevation <$> got)))
                     (graph s) l (cache s) (network s)
                     (trace s ++ [EvLog (LogCallCount N (max_locations_per_batch a));
                                  EvLog (LogCountsAgree N (length got))]))
      else (Raise (ElevationCountMismatch N (length got)),
            mk_state (frame s) (graph s) l (cache s) (network s)
                     (trace s ++ [EvLog (LogCallCount N (max_locations_per_batch a))])).
Proof.
  intros Hb Hall N got.
  destruct (fetch_batches_all_cached a s chunks js Hb Hall) as (l & Hrun & Hres).
  exists l.
  unfold fetch_elevations_for_latitude_longitude_pairs, bind.
  rewrite Hrun, attach_elevations_run. cbn. rewrite Hres. fold got N.
  case_bool_decide; [|reflexivity].
  unfold set_frame, add_event. cbn. rewrite <- app_assoc. reflexivity.
Qed.

(** The outcome of a fetch whose batches are all served. *)
Lemma fetch_served (a : fetch_args) (s : state) chunks js c' n' :
  batches (df_rows (frame s)) (max_locations_per_batch a) = Ok chunks ->
  served a chunks (cache s) (network s) js c' n' ->
  let N := length (df_rows (frame s)) in
  let got := concat (json_results <$> js) in
  let out := fetch_elevations_for_latitude_longitude_pairs a s in
  cache out.2 = c' /\ network out.2 = n' /\ graph out.2 = graph s /\
  if bool_decide (length got = N)
  then out.1 = Ok tt /\
       frame out.2 = mk_frame (df_rows (frame s)) (Some (elevation <$> got))
  else out.1 = Raise (ElevationCountMismatch N (length got)) /\
       frame out.2 = frame s.
Proof.
  intros Hb Hserved N got out.
  destruct (fetch_batches_served a s chunks js c' n' Hb Hserved)
    as (s1 & Hrun & Hc & Hn & Hf & Hg & Hres).
  subst out. unfold fetch_elevations_for_latitude_longitude_pairs, bind.
  rewrite Hrun, attach_elevations_run. cbn zeta. rewrite Hf, Hres. fold got N.
  case_bool_decide; cbn; rewrite ?Hf; auto.
Qed.

(** C6, as the code has it.  For every batch: when the cache holds an
    entry for the request URL, the cached body is used and the state
    changes in the local variables only (no log, no pause, no request);
    on a miss, with a valid pause, the fetcher pauses and issues the
    request, and when the response decodes it stores the body under the
    URL and uses it.  Consequently, when every batch of a first run was
    served (none failed), a second run on the same frame with the same
    arguments issues no request and no pause (it only logs), leaves the
    cache and the network as they were, and has the outcome of the first
    run: the same result or exception and the same frame. *)
Theorem fetch_cache_discipline (a : fetch_args) :
  (forall chunk s url j,
     request_url a chunk = Ok url -> cache s !! url = Some j ->
     exists l, fetch_batch a chunk s = (Ok tt, set_vars l s) /\
               response_json l = Some j /\
               results l = (results (vars s) ++ json_results j)%list) /\
  (forall chunk s url,
     request_url a chunk = Ok url -> cache s !! url = None ->
     PrimFloat.leb 0 (pause_duration a) = true ->
     (exists later,
        trace (fetch_batch a chunk s).2 =
          (trace s ++ [EvLog (LogRequesting url); EvSleep (pause_duration a);
                       EvGet url (proxies a)] ++ later)%list) /\
     (forall r rest j,
        network s = Responds r :: rest -> body r = Some j ->
        (fetch_batch a chunk s).1 = Ok tt /\
        cache (fetch_batch a chunk s).2 = <[url := j]> (cache s) /\
        results (vars (fetch_batch a chunk s).2) =
          (results (vars s) ++ json_results j)%list)) /\
  (forall s chunks js c' n',
     batches (df_rows (frame s)) (max_locations_per_batch a) = Ok chunks ->
     served a chunks (cache s) (network s) js c' n' ->
     let run1 := fetch_elevations_for_latitude_longitude_pairs a s in
     let run2 := fetch_elevations_for_latitude_longitude_pairs a run1.2 in
     run2.1 = run1.1 /\ frame run2.2 = frame run1.2 /\
     cache run2.2 = cache run1.2 /\ network run2.2 = network run1.2 /\
     exists logs, trace run2.2 = (trace run1.2 ++ logs)%list /\ Forall is_log logs).
Proof.
  split; [|split].
  - intros chunk s url j Hurl Hhit. eexists.
    split; [apply (fetch_batch_hit a chunk s url j Hurl Hhit)|]. split; reflexivity.
  - intros chunk s url Hurl Hmiss Hpause.
    split; [apply fetch_batch_miss_events; assumption|].
    intros r rest j Hnet Hbody.
    rewrite (fetch_batch_miss_responds a chunk s url r rest j) by assumption.
    repeat split.
  - intros s chunks js c' n' Hb Hserved run1 run2.
    destruct (fetch_served a s chunks js c' n' Hb Hserved) as (Hc1 & Hn1 & _ & Hout1).
    fold run1 in Hc1, Hn1, Hout1.
    destruct (served_fills_cache a _ _ _ _ _ _ Hserved) as (_ & Hall).
    assert (df_rows (frame run1.2) = df_rows (frame s)) as Hrows.
    { case_bool_decide; destruct Hout1 as [_ ->]; reflexivity. }
    assert (all_cached a chunks (cache run1.2) js) as Hall1.
    { apply Hall. rewrite Hc1. reflexivity. }
    assert (batches (df_rows (frame run1.2)) (max_locations_per_batch a) = Ok chunks) as Hb1.
    { rewrite Hrows. exact Hb. }
    destruct (fetch_all_cached a run1.2 chunks js Hb1 Hall1) as (l & Hrun2).
    fold run2 in Hrun2. cbn zeta in Hrun2. rewrite Hrows in Hrun2.
    case_bool_decide; destruct Hout1 as [Hr1 Hf1]; rewrite Hrun2; cbn [fst snd];
      cbn [frame cache network trace].
    + split; [symmetry; exact Hr1|]. split; [symmetry; exact Hf1|].
      split; [reflexivity|]. split; [reflexivity|].
      eexists. split; [reflexivity|].
      repeat constructor; eexists; reflexivity.
    + split; [symmetry; exact Hr1|]. split; [reflexivity|].
      split; [reflexivity|]. split; [reflexivity|].
      eexists. split; [reflexivity|].
      repeat constructor; eexists; reflexivity.
Qed.

(** C6 as stated fails: a first run that returns normally, its second
    request having failed, is followed by a second run with the same
    frame and arguments that issues a request and returns other
    elevations. *)
Lemma second_run_requests_again :
  let run1 := fetch_elevations_for_latitude_longitude_pairs flaky_args flaky_state in
  let run2 := fetch_elevations_for_latitude_longitude_pairs flaky_args run1.2 in
  run1.1 = Ok tt /\ run2.1 = Ok tt /\
  df_rows (frame run1.2) = df_rows (frame flaky_state) /\
  length (network_calls (trace run1.2)) = 2%nat /\
  length (network_calls (trace run2.2)) = 3%nat /\
  df_elevation (frame run1.2) = Some [10; 10]%float /\
  df_elevation (frame run2.2) = Some [10; 20]%float.
Proof. vm_compute. repeat split; reflexivity. Qed.

Lemma fetch_cache_discipline_witness :
  let run1 := fetch_elevations_for_latitude_longitude_pairs demo_args demo_state in
  let run2 := fetch_elevations_for_latitude_longitude_pairs demo_args run1.2 in
  run2.1 = run1.1 /\ frame run2.2 = frame run1.2 /\
  network_calls (trace run2.2) = network_calls (trace run1.2).
Proof.
  destruct (fetch_cache_discipline demo_args) as (_ & _ & Htwice).
  destruct (Htwice demo_state _ _ _ _ ltac:(vm_compute; reflexivity) demo_served)
    as (Hr & Hf & _ & _ & logs & Ht & Hlogs).
  cbn zeta. split; [exact Hr|]. split; [exact Hf|].
  rewrite Ht. unfold network_calls. rewrite List.filter_app.
  replace (List.filter is_network_call logs) with (@nil event); [apply app_nil_r|].
  clear Ht. induction Hlogs as [|e logs [m ->] _ IH]; [reflexivity|exact IH].
Defined.

(** ** The request URL *)

Lemma default_template_key_error (locations : string) (kwargs : gmap string string) :
  kwargs !! "locations" = None ->
  PyFormat.format default_url_template [locations] kwargs = Raise (KeyError "locations").
Proof.
  intros Hno. vm_compute in Hno. vm_compute. rewrite Hno. reflexivity.
Qed.

Lemma join_results_ok (sep : string) (items : list (result string)) :
  Forall (fun x => exists v, x = Ok v) items -> exists v, join_results sep items = Ok v.
Proof.
  induction 1 as [|x items [v ->] Hitems [w IH]]; [exists ""; reflexivity|].
  cbn [join_results]. destruct items as [|y items]; [exists v; reflexivity|].
  rewrite IH. eexists. reflexivity.
Qed.

Lemma locations_of_ok (places : Z) (chunk : list row) :
  0 <= places -> exists locations, locations_of places chunk = Ok locations.
Proof.
  intros Hplaces. apply join_results_ok. apply Forall_fmap, Forall_forall.
  intros r _. unfold format_pair. cbn.
  replace (places <? 0) with false by (symmetry; apply Z.ltb_ge; lia).
  eexists. reflexivity.
Qed.

Lemma string_app_assoc (s1 s2 s3 : string) :
  (s1 +:+ s2) +:+ s3 = s1 +:+ (s2 +:+ s3).
Proof.
  induction s1 as [|c s1 IH]; [reflexivity|].
  change (String c ((s1 +:+ s2) +:+ s3) = String c (s1 +:+ (s2 +:+ s3))).
  f_equal. exact IH.
Qed.

(** The text between the separators comes out pair by pair: latitude,
    comma, longitude, each in fixed notation with [places] decimals. *)
Lemma locations_of_two (places : Z) (r1 r2 : row) :
  0 <= places ->
  locations_of places [r1; r2] =
    Ok (PyFloat.format_fixed (Z.to_N places) (latitude r1) +:+ "," +:+
        PyFloat.format_fixed (Z.to_N places) (longitude r1) +:+ "|" +:+
        PyFloat.format_fixed (Z.to_N places) (latitude r2) +:+ "," +:+
        PyFloat.format_fixed (Z.to_N places) (longitude r2)).
Proof.
  intros Hplaces. unfold locations_of, format_pair. cbn.
  replace (places <? 0) with false by (symmetry; apply Z.ltb_ge; lia).
  cbn [join_results]. rewrite !string_app_assoc. reflexivity.
Qed.

Lemma request_url_default (a : fetch_args) (chunk : list row) :
  url_template a = default_url_template ->
  url_template_kwargs a !! "locations" = None ->
  0 <= decimal_places_to_round a ->
  request_url a chunk = Raise (KeyError "locations").
Proof.
  intros Htemplate Hno Hplaces. unfold request_url.
  destruct (locations_of_ok _ chunk Hplaces) as [locations ->].
  rewrite Htemplate. apply default_template_key_error. exact Hno.
Qed.

Lemma fetch_batch_url_error (a : fetch_args) (chunk : list row) (s : state) (e : exn) :
  request_url a chunk = Raise e -> fetch_batch a chunk s = (Raise e, s).
Proof. intros Hurl. unfold fetch_batch, bind, lift. rewrite Hurl. reflexivity. Qed.

Lemma for_each_first_raises {A} (x : A) (xs : list A) (body : A -> M unit)
    (s s' : state) (e : exn) :
  body x s = (Raise e, s') -> for_each (x :: xs) body s = (Raise e, s').
Proof. intros Hx. cbn [for_each]. unfold bind. rewrite Hx. reflexivity. Qed.

Lemma batches_nonempty (rows : list row) (per_batch : Z) :
  0 < per_batch -> rows <> [] ->
  exists chunk chunks, batches rows per_batch = Ok (chunk :: chunks).
Proof.
  intros Hpos Hrows. rewrite batches_closed_form by exact Hpos.
  destruct (batch_count (length rows) (Z.to_nat per_batch)) as [|c] eqn:Hcount.
  - pose proof (batch_count_covers (length rows) (Z.to_nat per_batch) ltac:(lia)) as Hcov.
    rewrite Hcount in Hcov. destruct rows; [contradiction|cbn in Hcov; lia].
  - cbn [seq fmap list_fmap]. eexists _, _. reflexivity.
Qed.

Lemma fetch_batches_url_error (a : fetch_args) (s : state) (e : exn) :
  0 < max_locations_per_batch a ->
  df_rows (frame s) <> [] ->
  (forall chunk, request_url a chunk = Raise e) ->
  fetch_batches a s =
    (Raise e,
     add_event (EvLog (LogCallCount (length (df_rows (frame s)))
                                    (max_locations_per_batch a)))
               (set_vars (mk_locals None None []) s)).
Proof.
  intros Hpos Hrows Hurl.
  destruct (batches_nonempty _ _ Hpos Hrows) as (chunk & chunks & Hb).
  unfold fetch_batches, bind, modify, get_state, log, lift. cbn.
  replace (max_locations_per_batch a =? 0) with false by (symmetry; apply Z.eqb_neq; lia).
  cbn. rewrite Hb.
  erewrite for_each_first_raises; [reflexivity|].
  apply fetch_batch_url_error, Hurl.
Qed.

(** C4, at the default template.  The fetch passes the locations string
    to [format] as a positional argument, while the default
    [url_template] names its field [{locations}]: with the default
    template, no entry ['locations'] among the keyword arguments and at
    least one coordinate pair, the first batch already raises
    [KeyError('locations')]; no URL is built, no request is made and the
    frame is as it was. *)
Theorem default_template_key_error_at_fetch (a : fetch_args) (s : state) :
  url_template a = default_url_template ->
  url_template_kwargs a !! "locations" = None ->
  0 <= decimal_places_to_round a ->
  0 < max_locations_per_batch a ->
  df_rows (frame s) <> [] ->
  let out := fetch_elevations_for_latitude_longitude_pairs a s in
  out.1 = Raise (KeyError "locations") /\
  frame out.2 = frame s /\ network out.2 = network s /\
  trace out.2 =
    (trace s ++ [EvLog (LogCallCount (length (df_rows (frame s)))
                                     (max_locations_per_batch a))])%list.
Proof.
  intros Htemplate Hno Hplaces Hpos Hrows.
  unfold fetch_elevations_for_latitude_longitude_pairs, bind.
  rewrite (fetch_batches_url_error a s (KeyError "locations") Hpos Hrows).
  - cbn. auto.
  - intros chunk. apply request_url_default; assumption.
Qed.

Lemma default_template_key_error_witness :
  (fetch_elevations_for_latitude_longitude_pairs (default_fetch_args "K") demo_state).1 =
    Raise (KeyError "locations") /\
  network (fetch_elevations_for_latitude_longitude_pairs (default_fetch_args "K") demo_state).2 =
    network demo_state.
Proof.
  destruct (default_template_key_error_at_fetch (default_fetch_args "K") demo_state
              ltac:(reflexivity) ltac:(vm_compute; reflexivity) ltac:(vm_compute; discriminate)
              ltac:(reflexivity) ltac:(discriminate))
    as (Hout & _ & Hnet & _).
  split; [exact Hout|exact Hnet].
Defined.

(** With a template that takes the locations string by position, the URL
    does hold the formatted pairs. *)
Example demo_request_url :
  request_url demo_args (take 2 demo_rows) =
    Ok "https://elevation.test/json?locations=37.12346,-122.50000|38.00000,-121.00000&key=K".
Proof. vm_compute. reflexivity. Qed.

(** ** A batch whose request fails *)

(** What one iteration does when the URL is not cached and
    [requests.get] raises: the handler reads the local [response], and
    line 92 then reads the local [response_json]; both are bound only if
    an earlier iteration bound them.  The failed batch never adds zero
    results and goes on: it raises, or it adds the results of the body
    that was current before it. *)
Lemma fetch_batch_request_fails (a : fetch_args) (chunk : list row) (s : state)
    (url msg : string) (rest : list http_outcome) :
  request_url a chunk = Ok url ->
  cache s !! url = None ->
  PrimFloat.leb 0 (pause_duration a) = true ->
  network s = Fails msg :: rest ->
  (fetch_batch a chunk s).1 =
    match response (vars s), response_json (vars s) with
    | None, _ => Raise (UnboundLocalError "response")
    | Some _, None => Raise (UnboundLocalError "response_json")
    | Some _, Some _ => Ok tt
    end /\
  forall r0 j0,
    response (vars s) = Some r0 -> response_json (vars s) = Some j0 ->
    results (vars (fetch_batch a chunk s).2) = (results (vars s) ++ json_results j0)%list /\
    cache (fetch_batch a chunk s).2 = cache s.
Proof.
  intros Hurl Hmiss Hpause Hnet.
  unfold fetch_batch, bind, lift, get_from_cache, get_state, ret.
  rewrite Hurl. cbn. rewrite Hmiss.
  unfold try_except, bind, log, time_sleep, requests_get, modify, bind, get_state.
  rewrite Hpause. cbn. rewrite Hnet. cbn.
  unfold except_handler, bind, log, modify, get_state, raise, ret. cbn.
  destruct (response (vars s)) as [r0|]; cbn.
  - destruct (response_json (vars s)) as [j0|]; cbn.
    + split; [reflexivity|]. intros r1 j1 _ [= <-]. split; reflexivity.
    + split; [reflexivity|]. intros r1 j1 _ [=].
  - split; [reflexivity|]. intros r1 j1 [=].
Qed.

(** C5 fails on the code.  A first request that fails is caught and
    logged, but the handler then raises [UnboundLocalError] for
    [response]: the fetch aborts without reaching the count check.  A
    first response whose body does not decode gets through the handler
    and aborts at line 92 with [UnboundLocalError] for [response_json].
    A later batch whose request fails adds the results of the batch
    before it again, so that here the count check passes and the fetch
    returns the elevation of the first pair for both pairs. *)
Theorem failed_batch_aborts_or_repeats :
  (fetch_elevations_for_latitude_longitude_pairs flaky_args
     (lone_state [Fails "connection reset"])).1 =
    Raise (UnboundLocalError "response") /\
  (fetch_elevations_for_latitude_longitude_pairs flaky_args
     (lone_state [Responds (mk_response 502 "Bad Gateway" None)])).1 =
    Raise (UnboundLocalError "response_json") /\
  (fetch_elevations_for_latitude_longitude_pairs flaky_args flaky_state).1 = Ok tt /\
  results (vars (fetch_elevations_for_latitude_longitude_pairs flaky_args flaky_state).2) =
    [mk_entry 10%float; mk_entry 10%float] /\
  df_elevation (frame (fetch_elevations_for_latitude_longitude_pairs
                         flaky_args flaky_state).2) = Some [10; 10]%float.
Proof. vm_compute. repeat split; reflexivity. Qed.

(** ** Edge grades *)

Lemma graded_same_nodes (G G' : Graph) (add_absolute : bool) (e : edge) :
  g_nodes G' = g_nodes G -> graded G' add_absolute e = graded G add_absolute e.
Proof.
  intros Hnodes. unfold graded, node_elevation, node_data. rewrite Hnodes. reflexivity.
Qed.

Lemma grade_all_same_nodes (G G' : Graph) (add_absolute : bool) (todo : list edge) :
  g_nodes G' = g_nodes G -> grade_all G' add_absolute todo = grade_all G add_absolute todo.
Proof.
  intros Hnodes. induction todo as [|e rest IH]; [reflexivity|].
  cbn [grade_all]. rewrite (graded_same_nodes G G' _ _ Hnodes), IH. reflexivity.
Qed.

Lemma set_graph_twice (g1 g2 : Graph) (s : state) :
  set_graph g2 (set_graph g1 s) = set_graph g2 s.
Proof. reflexivity. Qed.

Lemma grade_loop (add_absolute : bool) (todo : list edge) :
  forall (done : list edge) (s : state),
    g_edges (graph s) = (done ++ todo)%list ->
    for_each (seq (length done) (length todo)) (grade_edge add_absolute) s =
      (result_of_stop (grade_all (graph s) add_absolute todo).2,
       set_graph (mk_graph (g_nodes (graph s))
                           (done ++ (grade_all (graph s) add_absolute todo).1)) s).
Proof.
  induction todo as [|e rest IH]; intros done s Hedges.
  - cbn. rewrite <- Hedges. destruct s as [f [nodes edges] l c n t]. reflexivity.
  - cbn [length seq for_each grade_all]. unfold bind at 1.
    unfold grade_edge at 1. unfold bind, get_state, lift, modify.
    rewrite Hedges, list_lookup_middle by reflexivity.
    destruct (graded (graph s) add_absolute e) as [data|x] eqn:Hgraded.
    + replace (<[length done := mk_edge (e_src e) (e_dst e) data]> (done ++ e :: rest)%list)
        with (done ++ mk_edge (e_src e) (e_dst e) data :: rest)%list
        by (rewrite <- (Nat.add_0_r (length done)) at 1; rewrite insert_app_r; reflexivity).
      set (e' := mk_edge (e_src e) (e_dst e) data).
      set (s1 := set_graph (mk_graph (g_nodes (graph s)) (done ++ e' :: rest)) s).
      specialize (IH (done ++ [e']) s1).
      rewrite length_app, Nat.add_1_r in IH.
      rewrite IH by (cbn; rewrite <- app_assoc; reflexivity).
      rewrite (grade_all_same_nodes (graph s) (graph s1)) by reflexivity.
      destruct (grade_all (graph s) add_absolute rest) as [rest' stop].
      cbn [fst snd]. subst s1. rewrite set_graph_twice. cbn [graph g_nodes].
      rewrite <- app_assoc. reflexivity.
    + cbn. rewrite <- Hedges. destruct s as [f [nodes edges] l c n t]. reflexivity.
Qed.

(** The annotator in one equation: the graph keeps its nodes, its edges
    are those of [grade_all], and the log entry is written only when no
    edge raised. *)
Lemma add_edge_grades_run (add_absolute : bool) (s : state) :
  let G := graph s in
  let after := grade_all G add_absolute (g_edges G) in
  add_edge_grades add_absolute s =
    match after.2 with
    | None => (Ok tt, add_event (EvLog LogAddedGrades)
                                (set_graph (mk_graph (g_nodes G) after.1) s))
    | Some x => (Raise x, set_graph (mk_graph (g_nodes G) after.1) s)
    end.
Proof.
  cbn zeta. unfold add_edge_grades, bind, get_state.
  pose proof (grade_loop add_absolute (g_edges (graph s)) [] s eq_refl) as Hloop.
  cbn [length app] in Hloop. rewrite Hloop.
  destruct (grade_all _ _ _) as [edges' [x|]]; reflexivity.
Qed.

Lemma positive_is_nonzero (L : float) :
  PrimFloat.ltb 0 L = true -> PrimFloat.eqb L 0 = false.
Proof.
  rewrite FloatAxioms.ltb_spec, FloatAxioms.eqb_spec.
  change (Prim2SF 0) with (S754_zero false).
  destruct (Prim2SF L) as [[]|[]| |[] m e]; cbn; congruence.
Qed.

Lemma positive_length_nonzero (e : edge) : positive_length e -> nonzero_length e.
Proof. intros (L & HL & Hpos). exists L. split; [exact HL|apply positive_is_nonzero, Hpos]. Qed.

Lemma node_in_graph_elevated (G : Graph) (n : node_key) :
  all_nodes_elevated G -> n ∈ (g_nodes G).*1 -> exists x, node_elevation G n = Ok x.
Proof.
  intros Hall Hin. unfold node_elevation, node_data.
  apply list_elem_of_fmap in Hin as (nd & -> & Hnd).
  destruct (list_find_elem_of (fun nd' : node_key * attrs => nd'.1 = nd.1) (g_nodes G) nd Hnd eq_refl)
    as [[i nd'] Hfind].
  rewrite Hfind. apply list_find_Some in Hfind as (Hi & _ & _).
  apply list_elem_of_lookup_2 in Hi.
  unfold all_nodes_elevated in Hall. rewrite Forall_forall in Hall.
  destruct (Hall nd' Hi) as [x Hx]. exists x. unfold getitem. rewrite Hx. reflexivity.
Qed.

Lemma elevated_ends_in_graph (G : Graph) :
  all_nodes_elevated G -> edges_in_graph G -> Forall (elevated_ends G) (g_edges G).
Proof.
  intros Hall Hin. unfold edges_in_graph in Hin.
  eapply Forall_impl; [exact Hin|]. intros e [Hsrc Hdst].
  split; apply node_in_graph_elevated; assumption.
Qed.

(** The data dictionary the body of the loop leaves on a gradable edge. *)
Lemma graded_ok (G : Graph) (add_absolute : bool) (e : edge)
    (elevation_u elevation_v length_ : float) :
  node_elevation G (e_src e) = Ok elevation_u ->
  node_elevation G (e_dst e) = Ok elevation_v ->
  e_data e !! "length" = Some length_ ->
  PrimFloat.eqb length_ 0 = false ->
  graded G add_absolute e =
    Ok (let grade := grade_of elevation_u elevation_v length_ in
        if add_absolute
        then <["grade_abs" := PrimFloat.abs grade]> (<["grade" := grade]> (e_data e))
        else <["grade" := grade]> (e_data e)).
Proof.
  intros Hu Hv Hlen Hnz. unfold graded, getitem, truediv.
  rewrite Hv, Hu, Hlen, Hnz. reflexivity.
Qed.

Lemma graded_gradable (G : Graph) (add_absolute : bool) (e : edge) :
  elevated_ends G e -> nonzero_length e ->
  exists data, graded G add_absolute e = Ok data.
Proof.
  intros [[u Hu] [v Hv]] (L & HL & Hnz).
  eexists. apply (graded_ok G add_absolute e u v L); assumption.
Qed.

(** Whatever it is given, the body of the loop touches no key of the data
    dictionary but ['grade'] and, when asked for, ['grade_abs']. *)
Lemma graded_frame (G : Graph) (add_absolute : bool) (e : edge) (data : attrs) (name : string) :
  graded G add_absolute e = Ok data ->
  name <> "grade" ->
  (name <> "grade_abs" \/ add_absolute = false) ->
  data !! name = e_data e !! name.
Proof.
  unfold graded. intros Hgraded Hgrade Habs.
  repeat case_match; simplify_eq.
  - destruct Habs as [Habs|?]; [|discriminate].
    rewrite !lookup_insert_ne by congruence. reflexivity.
  - rewrite lookup_insert_ne by congruence. reflexivity.
Qed.

Lemma grade_all_length (G : Graph) (add_absolute : bool) (todo : list edge) :
  length (grade_all G add_absolute todo).1 = length todo.
Proof.
  induction todo as [|e rest IH]; [reflexivity|]. cbn [grade_all].
  destruct (graded G add_absolute e); [|reflexivity].
  destruct (grade_all G add_absolute rest). cbn in *. rewrite IH. reflexivity.
Qed.

(** The edge at position [k] after the loop: itself, untouched, when the
    loop stopped before it, and otherwise itself with the data of
    [graded]. *)
Lemma grade_all_lookup (G : Graph) (add_absolute : bool) (todo : list edge)
    (k : nat) (e : edge) :
  todo !! k = Some e ->
  (grade_all G add_absolute todo).1 !! k = Some e \/
  exists data, graded G add_absolute e = Ok data /\
               (grade_all G add_absolute todo).1 !! k =
                 Some (mk_edge (e_src e) (e_dst e) data).
Proof.
  revert k. induction todo as [|e0 rest IH]; intros k Hk; [destruct k; discriminate|].
  cbn [grade_all]. destruct (graded G add_absolute e0) as [data0|x] eqn:H0.
  - destruct (grade_all G add_absolute rest) as [rest' stop] eqn:Hrest. cbn [fst].
    destruct k as [|k]; cbn in Hk |- *.
    + injection Hk as <-. right. exists data0. split; [exact H0|reflexivity].
    + specialize (IH k Hk). cbn [fst] in IH. exact IH.
  - left. exact Hk.
Qed.

(** While the edges up to position [k] are gradable, the edge at [k] gets
    the data of [graded], whatever happens at later edges. *)
Lemma grade_all_prefix (G : Graph) (add_absolute : bool) (todo : list edge)
    (k : nat) (e : edge) :
  Forall (fun e' => exists data, graded G add_absolute e' = Ok data) (take (S k) todo) ->
  todo !! k = Some e ->
  exists data, graded G add_absolute e = Ok data /\
               (grade_all G add_absolute todo).1 !! k =
                 Some (mk_edge (e_src e) (e_dst e) data).
Proof.
  revert k. induction todo as [|e0 rest IH]; intros k Hall Hk; [destruct k; discriminate|].
  cbn [take] in Hall. apply Forall_cons in Hall as [[data0 H0] Hall].
  cbn [grade_all]. rewrite H0.
  destruct (grade_all G add_absolute rest) as [rest' stop] eqn:Hrest. cbn [fst].
  destruct k as [|k]; cbn in Hk |- *.
  - injection Hk as <-. exists data0. split; [exact H0|reflexivity].
  - specialize (IH k Hall Hk). cbn [fst] in IH. exact IH.
Qed.

Lemma grade_all_no_stop (G : Graph) (add_absolute : bool) (todo : list edge) :
  Forall (fun e' => exists data, graded G add_absolute e' = Ok data) todo ->
  (grade_all G add_absolute todo).2 = None.
Proof.
  induction 1 as [|e rest [data He] _ IH]; [reflexivity|].
  cbn [grade_all]. rewrite He.
  destruct (grade_all G add_absolute rest). exact IH.
Qed.

(** The state after the annotator, whatever its outcome. *)
Lemma add_edge_grades_state (add_absolute : bool) (s : state) :
  let out := add_edge_grades add_absolute s in
  g_nodes (graph out.2) = g_nodes (graph s) /\
  g_edges (graph out.2) = (grade_all (graph s) add_absolute (g_edges (graph s))).1 /\
  out.1 = result_of_stop (grade_all (graph s) add_absolute (g_edges (graph s))).2 /\
  frame out.2 = frame s /\ cache out.2 = cache s /\ network out.2 = network s.
Proof.
  cbn zeta. rewrite add_edge_grades_run. cbn zeta.
  destruct (grade_all _ _ _) as [edges' [x|]]; cbn; auto 10.
Qed.

(** C10.  In a graph whose nodes all carry an elevation attribute and
    whose edges all have a positive length, the annotator returns; it
    leaves the nodes with all their attributes, the frame, the cache and
    the network as they were; it keeps the edges in number, order and
    endpoints; and in the data dictionary of every edge it leaves every
    key other than ['grade'] and ['grade_abs'] as it was, ['length']
    among them; when [add_absolute] is false it leaves ['grade_abs'] as
    it was too, so writes none. *)
Theorem add_edge_grades_frame (add_absolute : bool) (s : state) :
  all_nodes_elevated (graph s) ->
  edges_in_graph (graph s) ->
  Forall positive_length (g_edges (graph s)) ->
  let out := add_edge_grades add_absolute s in
  out.1 = Ok tt /\
  g_nodes (graph out.2) = g_nodes (graph s) /\
  frame out.2 = frame s /\ cache out.2 = cache s /\ network out.2 = network s /\
  length (g_edges (graph out.2)) = length (g_edges (graph s)) /\
  forall (k : nat) (e : edge),
    g_edges (graph s) !! k = Some e ->
    exists e',
      g_edges (graph out.2) !! k = Some e' /\
      e_src e' = e_src e /\ e_dst e' = e_dst e /\
      e_data e' !! "length" = e_data e !! "length" /\
      (add_absolute = false -> e_data e' !! "grade_abs" = e_data e !! "grade_abs") /\
      forall name : string,
        name <> "grade" -> name <> "grade_abs" ->
        e_data e' !! name = e_data e !! name.
Proof.
  intros Hnodes Hin Hpos.
  assert (Forall (fun e' => exists data, graded (graph s) add_absolute e' = Ok data)
                 (g_edges (graph s))) as Hgradable.
  { pose proof (elevated_ends_in_graph _ Hnodes Hin) as Hends.
    rewrite Forall_forall in Hends, Hpos. apply Forall_forall. intros e He.
    apply graded_gradable; [apply Hends, He|apply positive_length_nonzero, Hpos, He]. }
  destruct (add_edge_grades_state add_absolute s) as (Hn & He & Hr & Hf & Hc & Hnet).
  cbn zeta. rewrite Hr, He, (grade_all_no_stop _ _ _ Hgradable), grade_all_length.
  repeat (split; [first [reflexivity|assumption]|]).
  intros k e Hk.
  destruct (grade_all_prefix (graph s) add_absolute _ k e
              (Forall_take _ _ _ Hgradable) Hk) as (data & Hdata & Hlookup).
  eexists. split; [exact Hlookup|]. cbn [e_src e_dst e_data].
  split; [reflexivity|]. split; [reflexivity|].
  split; [|split].
  - apply (graded_frame _ _ _ _ _ Hdata); [discriminate|left; discriminate].
  - intros ->. apply (graded_frame _ _ _ _ _ Hdata); [discriminate|right; reflexivity].
  - intros name Hg Ha. apply (graded_frame _ _ _ _ _ Hdata); [exact Hg|left; exact Ha].
Qed.

(** C7, as the code has it.  In a graph where every node carries an
    elevation attribute, for every directed edge [(u, v)] with a positive
    length [L] such that every edge the loop visits before it has a
    length that is not zero, the annotator leaves on the edge
    [grade = round((elevation[v] - elevation[u]) / L, 4)] and, when
    [add_absolute] is set, [grade_abs = abs(grade)], whether or not a
    later edge makes it raise.  For elevations 100.000 and 110.000 and
    length 50.0 the grade is 0.2, for the reverse edge -0.2, and the
    absolute value of both is 0.2. *)
Theorem edge_grade_written (add_absolute : bool) (s : state)
    (k : nat) (e : edge) (L : float) :
  all_nodes_elevated (graph s) ->
  edges_in_graph (graph s) ->
  g_edges (graph s) !! k = Some e ->
  e_data e !! "length" = Some L ->
  PrimFloat.ltb 0 L = true ->
  Forall nonzero_length (take k (g_edges (graph s))) ->
  let out := add_edge_grades add_absolute s in
  (exists elevation_u elevation_v e',
     node_elevation (graph s) (e_src e) = Ok elevation_u /\
     node_elevation (graph s) (e_dst e) = Ok elevation_v /\
     g_edges (graph out.2) !! k = Some e' /\
     e_src e' = e_src e /\ e_dst e' = e_dst e /\
     e_data e' !! "grade" = Some (grade_of elevation_u elevation_v L) /\
     (add_absolute = true ->
      e_data e' !! "grade_abs" =
        Some (PrimFloat.abs (grade_of elevation_u elevation_v L)))) /\
  grade_of 100 110 50 = 0.2%float /\
  grade_of 110 100 50 = (-0.2)%float /\
  PrimFloat.abs (grade_of 100 110 50) = 0.2%float /\
  PrimFloat.abs (grade_of 110 100 50) = 0.2%float.
Proof.
  intros Hnodes Hin Hk HL Hpos Hbefore.
  split; [|vm_compute; repeat split; reflexivity].
  pose proof (elevated_ends_in_graph _ Hnodes Hin) as Hends.
  assert (elevated_ends (graph s) e) as [[u Hu] [v Hv]].
  { rewrite Forall_forall in Hends. apply Hends. eapply list_elem_of_lookup_2, Hk. }
  pose proof (graded_ok (graph s) add_absolute e u v L Hu Hv HL
                (positive_is_nonzero L Hpos)) as Hgraded.
  assert (Forall (fun e' => exists data, graded (graph s) add_absolute e' = Ok data)
                 (take (S k) (g_edges (graph s)))) as Hprefix.
  { rewrite (take_S_r _ _ _ Hk). apply Forall_app. split.
    - rewrite Forall_forall in Hends, Hbefore. apply Forall_forall. intros e0 He0.
      apply graded_gradable; [|apply Hbefore, He0].
      apply Hends. apply elem_of_take in He0 as (i & Hi & _).
      eapply list_elem_of_lookup_2, Hi.
    - repeat constructor. eexists. exact Hgraded. }
  destruct (grade_all_prefix (graph s) add_absolute _ k e Hprefix Hk)
    as (data & Hdata & Hlookup).
  destruct (add_edge_grades_state add_absolute s) as (_ & He & _).
  cbn zeta. rewrite He.
  exists u, v. eexists. split; [exact Hu|]. split; [exact Hv|].
  split; [exact Hlookup|]. cbn [e_src e_dst e_data].
  split; [reflexivity|]. split; [reflexivity|].
  rewrite Hgraded in Hdata. injection Hdata as <-. cbn zeta.
  destruct add_absolute.
  - split; [|intros _; apply lookup_insert_eq].
    rewrite lookup_insert_ne by discriminate. apply lookup_insert_eq.
  - split; [apply lookup_insert_eq|discriminate].
Qed.

Lemma hill_nodes_elevated : all_nodes_elevated hill_graph.
Proof.
  unfold all_nodes_elevated, hill_graph, hill_nodes. cbn [g_nodes].
  repeat (apply Forall_cons; split; [eexists; vm_compute; reflexivity|]).
  apply Forall_nil. exact I.
Qed.

Lemma hill_edges_in_graph : edges_in_graph hill_graph.
Proof.
  unfold edges_in_graph, hill_graph, hill_nodes. cbn.
  repeat (apply Forall_cons; split; [split; set_solver|]).
  apply Forall_nil. exact I.
Qed.

Lemma hill_positive_lengths : Forall positive_length (g_edges hill_graph).
Proof.
  unfold hill_graph. cbn [g_edges].
  repeat (apply Forall_cons; split;
          [exists 50%float; split; vm_compute; reflexivity|]).
  apply Forall_nil. exact I.
Qed.

Lemma add_edge_grades_frame_witness :
  (add_edge_grades false (state_of_graph hill_graph)).1 = Ok tt /\
  g_nodes (graph (add_edge_grades false (state_of_graph hill_graph)).2) = hill_nodes.
Proof.
  destruct (add_edge_grades_frame false (state_of_graph hill_graph)
              hill_nodes_elevated hill_edges_in_graph hill_positive_lengths)
    as (Hok & Hnodes & _).
  split; [exact Hok|exact Hnodes].
Defined.

Lemma edge_grade_written_witness :
  exists e',
    g_edges (graph (add_edge_grades true (state_of_graph hill_graph)).2) !! 1%nat = Some e' /\
    e_data e' !! "grade" = Some (-0.2)%float /\
    e_data e' !! "grade_abs" = Some 0.2%float.
Proof.
  destruct (edge_grade_written true (state_of_graph hill_graph) 1
              (mk_edge (KInt 2) (KInt 1) {[ "length" := 50%float; "oneway" := 0%float ]})
              50%float hill_nodes_elevated hill_edges_in_graph
              ltac:(reflexivity) ltac:(vm_compute; reflexivity) ltac:(reflexivity)
              ltac:(apply Forall_take, Forall_impl with (1 := hill_positive_lengths),
                      positive_length_nonzero))
    as ((u & v & e' & Hu & Hv & He' & _ & _ & Hgrade & Habs) & _ & Hdown & _ & Hdown_abs).
  vm_compute in Hu, Hv. injection Hu as <-. injection Hv as <-.
  exists e'. split; [exact He'|].
  rewrite Hgrade, (Habs eq_refl), Hdown_abs, Hdown. split; reflexivity.
Defined.

Example hill_grades :
  (fun e => (e_data e !! "grade", e_data e !! "grade_abs", e_data e !! "length"))
    <$> g_edges (graph (add_edge_grades true (state_of_graph hill_graph)).2) =
  [(Some 0.2, Some 0.2, Some 50); (Some (-0.2), Some 0.2, Some 50)]%float.
Proof. vm_compute. reflexivity. Qed.

(** C7 as stated fails: every node carries an elevation and the second
    edge has a positive length, but the division for the first edge
    raises and the annotator never reaches the second, which keeps its
    data dictionary without a grade. *)
Lemma zero_length_edge_stops_annotator :
  let out := add_edge_grades true (state_of_graph ford_graph) in
  (fun nd : node_key * attrs => nd.2 !! "elevation") <$> g_nodes ford_graph =
    [Some 100; Some 110]%float /\
  out.1 = Raise ZeroDivisionError /\
  (fun e => (e_src e, e_dst e, e_data e !! "length", e_data e !! "grade"))
    <$> g_edges (graph out.2) =
  [(KInt 1, KInt 1, Some 0%float, None); (KInt 1, KInt 2, Some 50%float, None)] /\
  PrimFloat.ltb 0 50 = true.
Proof. vm_compute. repeat split; reflexivity. Qed.

(** ** The coordinate table *)

Lemma collect_node_triples (nodes : list (node_key * attrs)) (rows : list row) :
  collect (node_triple <$> nodes) = Ok rows ->
  Forall2 (fun nd r => row_index r = nd.1 /\
                       nd.2 !! "y" = Some (latitude r) /\
                       nd.2 !! "x" = Some (longitude r)) nodes rows.
Proof.
  revert rows. induction nodes as [|nd nodes IH]; intros rows Hrows; cbn in Hrows.
  - injection Hrows as <-. constructor.
  - unfold node_triple at 1 in Hrows.
    destruct (nd.2 !! "y") as [y|] eqn:Hy; [|discriminate].
    destruct (nd.2 !! "x") as [x|] eqn:Hx; [|discriminate].
    destruct (collect (node_triple <$> nodes)) as [rows'|] eqn:Hrest; [|discriminate].
    injection Hrows as <-. constructor; [|apply IH; reflexivity].
    cbn. auto.
Qed.

Lemma collect_node_triples_ok (nodes : list (node_key * attrs)) :
  Forall (fun nd : node_key * attrs =>
            is_Some (nd.2 !! "y") /\ is_Some (nd.2 !! "x")) nodes ->
  exists rows, collect (node_triple <$> nodes) = Ok rows.
Proof.
  induction 1 as [|nd nodes [[y Hy] [x Hx]] _ [rows IH]]; [exists []; reflexivity|].
  cbn. unfold node_triple at 1. rewrite Hy, Hx, IH. eexists. reflexivity.
Qed.

Lemma triples_index (nodes : list (node_key * attrs)) (rows : list row) :
  Forall2 (fun nd r => row_index r = nd.1 /\
                       nd.2 !! "y" = Some (latitude r) /\
                       nd.2 !! "x" = Some (longitude r)) nodes rows ->
  row_index <$> rows = nodes.*1.
Proof.
  induction 1 as [|nd r nodes rows (Hi & _ & _) _ IH]; [reflexivity|].
  cbn. rewrite Hi, IH. reflexivity.
Qed.

(** C9, as the code has it.  For a graph with at least one node, whose
    nodes all carry [x] and [y], the coordinate table is built exactly
    when every node key is an integer of 64 bits: then its rows are the
    nodes in order, each with the key as index, [y] as latitude and [x]
    as longitude; with any other key the assertion on the index dtype
    fails. *)
Theorem coordinate_table_accepts_integer_keys (G : Graph) :
  g_nodes G <> [] ->
  Forall (fun nd : node_key * attrs =>
            is_Some (nd.2 !! "y") /\ is_Some (nd.2 !! "x")) (g_nodes G) ->
  if forallb fits_int64 (g_nodes G).*1
  then exists rows,
         coordinate_table G = Ok (mk_frame rows None) /\
         Forall2 (fun nd r => row_index r = nd.1 /\
                              nd.2 !! "y" = Some (latitude r) /\
                              nd.2 !! "x" = Some (longitude r)) (g_nodes G) rows
  else coordinate_table G = Raise AssertionError.
Proof.
  intros Hnonempty Hxy.
  destruct (collect_node_triples_ok _ Hxy) as [rows Hrows].
  pose proof (collect_node_triples _ _ Hrows) as Htriples.
  pose proof (triples_index _ _ Htriples) as Hindex.
  unfold coordinate_table. rewrite Hrows, Hindex.
  assert (rows <> []) as Hrows_nonempty.
  { intros ->. apply Forall2_nil_inv_r in Htriples. contradiction. }
  unfold key_dtype.
  destruct (g_nodes G).*1 as [|k keys] eqn:Hkeys.
  { destruct (g_nodes G); [contradiction|discriminate]. }
  destruct (forallb fits_int64 (k :: keys)).
  - rewrite bool_decide_eq_true_2 by reflexivity.
    destruct rows as [|r rows]; [contradiction|]. cbn.
    exists (r :: rows). split; [reflexivity|exact Htriples].
  - rewrite bool_decide_eq_false_2 by discriminate. reflexivity.
Qed.

(** C9 as stated fails: the nodes carry numeric [x] and [y], and the
    table is refused for the type of the node keys. *)
Lemma string_keys_rejected :
  (fun nd : node_key * attrs => (nd.2 !! "y", nd.2 !! "x")) <$> g_nodes named_graph =
    [(Some 37.5, Some (-122.25)); (Some 37.75, Some (-122.5))]%float /\
  coordinate_table named_graph = Raise AssertionError /\
  (add_node_elevations (default_node_args "K") (state_of_graph named_graph)).1 =
    Raise AssertionError.
Proof. vm_compute. repeat split; reflexivity. Qed.

Lemma coordinate_table_witness :
  exists rows, coordinate_table hill_graph = Ok (mk_frame rows None) /\ length rows = 2%nat.
Proof.
  pose proof (coordinate_table_accepts_integer_keys hill_graph
                ltac:(discriminate)
                ltac:(repeat (apply Forall_cons; split;
                              [split; eexists; vm_compute; reflexivity|]);
                      apply Forall_nil; exact I)) as H.
  change (forallb fits_int64 (g_nodes hill_graph).*1) with true in H.
  destruct H as (rows & Htable & Hrows).
  exists rows. split; [exact Htable|].
  symmetry. exact (Forall2_length _ _ _ Hrows).
Defined.

(** ** Node elevations *)




Lemma write_node_elevations_run (s : state) (column : list float) :
  df_elevation (frame s) = Some column ->
  write_node_elevations s =
    if bool_decide (length column = length (g_nodes (graph s)))
    then
      let rounded := (fun x => PyFloat.np_round x 3) <$> column in
      (Ok tt,
       mk_state (mk_frame (df_rows (frame s)) (Some rounded))
                (set_node_attributes (graph s) "elevation"
                   (to_dict (row_index <$> df_rows (frame s)) rounded))
                (vars s) (cache s) (network s)
                (trace s ++ [EvLog (LogNodeCountsAgree (length (g_nodes (graph s)))
                                                        (length column));
                             EvLog LogAddedElevations]))
    else (Raise (NodeCountMismatch (length (g_nodes (graph s))) (length column)), s).
Proof.
  intros Hcolumn. unfold write_node_elevations, bind, get_state. rewrite Hcolumn.
  case_bool_decide; [|reflexivity].
  unfold log, modify, bind, set_frame, set_graph, add_event. cbn.
  rewrite <- app_assoc. reflexivity.
Qed.

(** What a fetch that returns has done to the frame and the graph. *)
Lemma fetch_returns (a : fetch_args) (s s1 : state) :
  fetch_elevations_for_latitude_longitude_pairs a s = (Ok tt, s1) ->
  graph s1 = graph s /\
  df_rows (frame s1) = df_rows (frame s) /\
  exists column, df_elevation (frame s1) = Some column /\
                 length column = length (df_rows (frame s)).
Proof.
  intros Hrun.
  unfold fetch_elevations_for_latitude_longitude_pairs, bind in Hrun.
  destruct (fetch_batches a s) as [[[]|e] s0] eqn:Hloop; [|discriminate].
  destruct (fetch_batches_same_objects a _ _ _ Hloop) as [[Hframe Hgraph] _].
  rewrite attach_elevations_run in Hrun. cbn zeta in Hrun.
  case_bool_decide as Hcount; [|discriminate]. injection Hrun as <-. cbn.
  rewrite Hframe, Hgraph. split; [reflexivity|]. split; [reflexivity|].
  eexists. split; [reflexivity|]. rewrite length_fmap, Hcount, Hframe. reflexivity.
Qed.

Lemma coordinate_table_rows (G : Graph) (df : DataFrame) :
  coordinate_table G = Ok df ->
  df_elevation df = None /\ row_index <$> df_rows df = (g_nodes G).*1.
Proof.
  unfold coordinate_table. intros Htable.
  destruct (collect (node_triple <$> g_nodes G)) as [rows|] eqn:Hrows; [|discriminate].
  repeat case_bool_decide; simplify_eq. cbn. split; [reflexivity|].
  apply triples_index, collect_node_triples, Hrows.
Qed.




(** ** Edge cases of the fetch *)

(** X1.  A batch size of 0: the division of line 65 raises before anything is
    logged, looked up or requested. *)
Theorem fetch_zero_batch_size (a : fetch_args) (s : state) :
  max_locations_per_batch a = 0 ->
  let out := fetch_elevations_for_latitude_longitude_pairs a s in
  out.1 = Raise ZeroDivisionError /\
  frame out.2 = frame s /\ cache out.2 = cache s /\
  network out.2 = network s /\ trace out.2 = trace s.
Proof.
  intros Hzero. cbn zeta.
  unfold fetch_elevations_for_latitude_longitude_pairs, fetch_batches.
  unfold bind, modify, get_state, raise. cbn. rewrite Hzero. cbn. auto.
Qed.

Lemma fetch_zero_batch_size_witness :
  (fetch_elevations_for_latitude_longitude_pairs (with_batch_size 0 demo_args) demo_state).1 =
    Raise ZeroDivisionError /\
  network (fetch_elevations_for_latitude_longitude_pairs
             (with_batch_size 0 demo_args) demo_state).2 = network demo_state.
Proof.
  destruct (fetch_zero_batch_size (with_batch_size 0 demo_args) demo_state eq_refl)
    as (Hout & _ & _ & Hnet & _).
  split; [exact Hout|exact Hnet].
Defined.

Lemma range_from_backwards (fuel : nat) (stop step : Z) :
  0 <= stop -> step < 0 -> range_from fuel 0 stop step = [].
Proof.
  intros Hstop Hstep. destruct fuel as [|fuel]; [reflexivity|]. cbn [range_from].
  replace (0 <? step) with false by (symmetry; apply Z.ltb_ge; lia).
  replace (stop <? 0) with false by (symmetry; apply Z.ltb_ge; lia).
  reflexivity.
Qed.

Lemma batches_negative_step (rows : list row) (per_batch : Z) :
  per_batch < 0 -> batches rows per_batch = Ok [].
Proof.
  intros Hneg. unfold batches, py_range.
  replace (per_batch =? 0) with false by (symmetry; apply Z.eqb_neq; lia).
  rewrite range_from_backwards by lia. reflexivity.
Qed.

Lemma batches_no_rows (per_batch : Z) :
  per_batch <> 0 -> batches [] per_batch = Ok [].
Proof.
  intros Hne. unfold batches, py_range.
  replace (per_batch =? 0) with false by (symmetry; apply Z.eqb_neq; lia).
  reflexivity.
Qed.

(** The fetch when its loop visits no batch. *)
Lemma fetch_no_batches (a : fetch_args) (s : state) :
  batches (df_rows (frame s)) (max_locations_per_batch a) = Ok [] ->
  let N := length (df_rows (frame s)) in
  let logged := add_event (EvLog (LogCallCount N (max_locations_per_batch a)))
                          (set_vars (mk_locals None None []) s) in
  fetch_elevations_for_latitude_longitude_pairs a s =
    if bool_decide (0%nat = N)
    then (Ok tt,
          set_frame (mk_frame (df_rows (frame s)) (Some []))
                    (add_event (EvLog (LogCountsAgree N 0)) logged))
    else (Raise (ElevationCountMismatch N 0), logged).
Proof.
  intros Hb. cbn zeta.
  unfold fetch_elevations_for_latitude_longitude_pairs, fetch_batches.
  unfold bind, modify, get_state, log, lift. cbn.
  rewrite (batches_ok_nonzero _ _ _ Hb). cbn. rewrite Hb. cbn.
  case_bool_decide; reflexivity.
Qed.

(** X2.  A negative batch size: [range(0, N, B)] is empty, so no batch is
    visited and nothing is requested; a frame with rows then fails the
    count check with zero results received. *)
Theorem fetch_negative_batch_size (a : fetch_args) (s : state) :
  max_locations_per_batch a < 0 ->
  let out := fetch_elevations_for_latitude_longitude_pairs a s in
  let N := length (df_rows (frame s)) in
  out.1 = (if bool_decide (0%nat = N) then Ok tt
           else Raise (ElevationCountMismatch N 0)) /\
  cache out.2 = cache s /\ network out.2 = network s /\
  network_calls (trace out.2) = network_calls (trace s).
Proof.
  intros Hneg. cbn zeta.
  rewrite (fetch_no_batches a s (batches_negative_step _ _ Hneg)). cbn zeta.
  unfold network_calls.
  case_bool_decide; cbn; rewrite ?List.filter_app; cbn; rewrite ?app_nil_r; auto.
Qed.

Lemma fetch_negative_batch_size_witness :
  (fetch_elevations_for_latitude_longitude_pairs (with_batch_size (-350) demo_args) demo_state).1 =
    Raise (ElevationCountMismatch 3 0) /\
  network (fetch_elevations_for_latitude_longitude_pairs
             (with_batch_size (-350) demo_args) demo_state).2 = network demo_state.
Proof.
  destruct (fetch_negative_batch_size (with_batch_size (-350) demo_args) demo_state eq_refl)
    as (Hout & _ & Hnet & _).
  split; [exact Hout|exact Hnet].
Defined.

(** X3.  A frame without rows: the fetch returns at once with an empty
    elevation column; nothing is looked up, requested or cached. *)
Theorem fetch_empty_frame (a : fetch_args) (s : state) :
  df_rows (frame s) = [] ->
  max_locations_per_batch a <> 0 ->
  let out := fetch_elevations_for_latitude_longitude_pairs a s in
  out.1 = Ok tt /\
  frame out.2 = mk_frame [] (Some []) /\
  cache out.2 = cache s /\ network out.2 = network s /\
  network_calls (trace out.2) = network_calls (trace s).
Proof.
  intros Hrows Hne. cbn zeta.
  rewrite fetch_no_batches by (rewrite Hrows; apply batches_no_rows, Hne).
  cbn zeta. rewrite Hrows. cbn [length]. rewrite bool_decide_eq_true_2 by reflexivity.
  cbn. unfold network_calls.
  rewrite !List.filter_app. cbn. rewrite !app_nil_r. auto.
Qed.

Lemma fetch_empty_frame_witness :
  (fetch_elevations_for_latitude_longitude_pairs demo_args (state_of_graph hill_graph)).1 = Ok tt /\
  frame (fetch_elevations_for_latitude_longitude_pairs demo_args (state_of_graph hill_graph)).2 =
    mk_frame [] (Some []).
Proof.
  destruct (fetch_empty_frame demo_args (state_of_graph hill_graph) eq_refl
              ltac:(discriminate)) as (Hout & Hframe & _).
  split; [exact Hout|exact Hframe].
Defined.

Lemma fetch_batches_first_url_error (a : fetch_args) (s : state) (e : exn)
    (chunk : list row) (chunks : list (list row)) :
  batches (df_rows (frame s)) (max_locations_per_batch a) = Ok (chunk :: chunks) ->
  request_url a chunk = Raise e ->
  fetch_batches a s =
    (Raise e,
     add_event (EvLog (LogCallCount (length (df_rows (frame s)))
                                    (max_locations_per_batch a)))
               (set_vars (mk_locals None None []) s)).
Proof.
  intros Hb Hurl.
  unfold fetch_batches, bind, modify, get_state, log, lift. cbn.
  rewrite (batches_ok_nonzero _ _ _ Hb). cbn. rewrite Hb.
  erewrite for_each_first_raises; [reflexivity|].
  apply fetch_batch_url_error, Hurl.
Qed.

Lemma locations_of_negative_places (places : Z) (r : row) (chunk : list row) :
  places < 0 ->
  locations_of places (r :: chunk) =
    Raise (ValueError "Format specifier missing precision").
Proof.
  intros Hneg. unfold locations_of. cbn [fmap list_fmap join_results].
  assert (format_pair places r =
          Raise (ValueError "Format specifier missing precision")) as ->.
  { unfold format_pair.
    replace (places <? 0) with true by (symmetry; apply Z.ltb_lt; lia).
    reflexivity. }
  destruct chunk; reflexivity.
Qed.

(** X4.  A negative number of decimal places: formatting the first pair of
    the first batch raises [ValueError]; no URL is built and nothing is
    requested, and the frame is as it was. *)
Theorem fetch_negative_places (a : fetch_args) (s : state) :
  decimal_places_to_round a < 0 ->
  0 < max_locations_per_batch a ->
  df_rows (frame s) <> [] ->
  let out := fetch_elevations_for_latitude_longitude_pairs a s in
  out.1 = Raise (ValueError "Format specifier missing precision") /\
  frame out.2 = frame s /\ cache out.2 = cache s /\ network out.2 = network s /\
  network_calls (trace out.2) = network_calls (trace s).
Proof.
  intros Hneg Hpos Hrows. cbn zeta.
  destruct (batches_slices (df_rows (frame s)) _ Hpos)
    as (chunks & Hb & Hcount & _ & Hslices).
  destruct chunks as [|chunk chunks].
  { cbn in Hcount.
    pose proof (batch_count_covers (length (df_rows (frame s)))
                  (Z.to_nat (max_locations_per_batch a)) ltac:(lia)) as Hcov.
    rewrite <- Hcount in Hcov. destruct (df_rows (frame s)); [contradiction|cbn in Hcov; lia]. }
  assert (exists r rest, chunk = r :: rest) as (r & rest & ->).
  { rewrite (Hslices 0%nat chunk eq_refl). cbn [Nat.mul drop].
    destruct (df_rows (frame s)) as [|r rows]; [contradiction|].
    destruct (Z.to_nat (max_locations_per_batch a)) as [|b] eqn:HB; [lia|].
    cbn. eexists _, _. reflexivity. }
  unfold fetch_elevations_for_latitude_longitude_pairs, bind.
  rewrite (fetch_batches_first_url_error a s
             (ValueError "Format specifier missing precision") _ _ Hb).
  - cbn. unfold network_calls. rewrite List.filter_app. cbn. rewrite app_nil_r. auto.
  - unfold request_url. rewrite locations_of_negative_places by exact Hneg. reflexivity.
Qed.

Lemma fetch_negative_places_witness :
  (fetch_elevations_for_latitude_longitude_pairs (with_places (-1) demo_args) demo_state).1 =
    Raise (ValueError "Format specifier missing precision") /\
  network (fetch_elevations_for_latitude_longitude_pairs
             (with_places (-1) demo_args) demo_state).2 = network demo_state.
Proof.
  destruct (fetch_negative_places (with_places (-1) demo_args) demo_state
              eq_refl eq_refl ltac:(discriminate))
    as (Hout & _ & _ & Hnet & _).
  split; [exact Hout|exact Hnet].
Defined.

(** ** What the fetch does to the cache and the network *)

Lemma requests_paced_nil (a : fetch_args) : requests_paced a [].
Proof. intros i url px Hi. destruct i; discriminate Hi. Qed.

Lemma requests_paced_logs (a : fetch_args) (t : list event) :
  Forall (fun e => is_network_call e = false) t -> requests_paced a t.
Proof.
  intros Hall i url px Hi.
  apply (Forall_lookup_1 _ _ _ _ Hall) in Hi. discriminate Hi.
Qed.

Lemma requests_paced_app (a : fetch_args) (t1 t2 : list event) :
  requests_paced a t1 -> requests_paced a t2 -> requests_paced a (t1 ++ t2).
Proof.
  intros H1 H2 i url px Hi.
  apply lookup_app_Some in Hi as [Hi|[Hlen Hi]].
  - destruct (H1 i url px Hi) as (Hpx & j & -> & Hlog & Hsleep).
    split; [exact Hpx|]. exists j. split; [reflexivity|].
    split; apply lookup_app_l_Some; assumption.
  - destruct (H2 _ url px Hi) as (Hpx & j & Hj & Hlog & Hsleep).
    split; [exact Hpx|]. exists (length t1 + j)%nat. split; [lia|].
    split.
    + rewrite lookup_app_r by lia. rewrite <- Hlog. f_equal. lia.
    + rewrite lookup_app_r by lia. rewrite <- Hsleep. f_equal. lia.
Qed.

Lemma batch_effects_refl (a : fetch_args) (s : state) : batch_effects a 0 s s.
Proof.
  split; [reflexivity|]. exists []. rewrite app_nil_r.
  split; [reflexivity|]. split; [cbn; lia|]. split; [apply requests_paced_nil|].
  intros url j Hj. left. exact Hj.
Qed.

Lemma batch_effects_same (a : fetch_args) (s s' : state) :
  cache s' = cache s -> trace s' = trace s -> batch_effects a 0 s s'.
Proof.
  intros Hc Ht. unfold batch_effects. rewrite Hc, Ht. apply batch_effects_refl.
Qed.

Lemma batch_effects_trans (a : fetch_args) (n m : nat) (s1 s2 s3 : state) :
  batch_effects a n s1 s2 -> batch_effects a m s2 s3 ->
  batch_effects a (n + m) s1 s3.
Proof.
  intros (Hc1 & t1 & Ht1 & Hn1 & Hp1 & Hk1) (Hc2 & t2 & Ht2 & Hn2 & Hp2 & Hk2).
  split; [etrans; eassumption|].
  exists (t1 ++ t2)%list. split; [rewrite Ht2, Ht1, app_assoc; reflexivity|].
  split; [|split].
  - unfold network_calls in *. rewrite List.filter_app, length_app. lia.
  - apply requests_paced_app; assumption.
  - intros url j H3. destruct (Hk2 url j H3) as [H2|Hin].
    + destruct (Hk1 url j H2) as [H1|Hin]; [left; exact H1|].
      right. apply elem_of_app. left. exact Hin.
    + right. apply elem_of_app. right. exact Hin.
Qed.

Lemma batch_effects_mono (a : fetch_args) (n m : nat) (s s' : state) :
  (n <= m)%nat -> batch_effects a n s s' -> batch_effects a m s s'.
Proof.
  intros Hle (Hc & t & Ht & Hn & Hp).
  split; [exact Hc|]. exists t. split; [exact Ht|]. split; [lia|exact Hp].
Qed.

(** One iteration of the loop: at most one request, paced, and no cache
    entry lost or replaced. *)
Lemma fetch_batch_effects (a : fetch_args) (chunk : list row) (s s' : state)
    (r : result unit) :
  fetch_batch a chunk s = (r, s') -> batch_effects a 1 s s'.
Proof.
  unfold fetch_batch, bind, lift, get_from_cache, get_state, ret.
  destruct (request_url a chunk) as [url|e]; cbn.
  2:{ intros [= <- <-]. apply (batch_effects_mono a 0); [lia|apply batch_effects_refl]. }
  destruct (cache s !! url) as [j|] eqn:Hlookup.
  { unfold assign_response_json, extend_results, bind, get_state, modify. cbn.
    intros [= <- <-]. apply (batch_effects_mono a 0); [lia|].
    split; [reflexivity|]. exists []. cbn. rewrite app_nil_r.
    split; [reflexivity|]. split; [lia|]. split; [apply requests_paced_nil|].
    intros u0 j0 Hu0. left. exact Hu0. }
  unfold try_except, bind, log, time_sleep, requests_get, modify, bind, get_state.
  unfold except_handler, json_of, assign_response, assign_response_json,
    save_to_cache, extend_results, bind, log, modify, get_state, raise, ret.
  intros Hrun. cbn in Hrun.
  repeat (case_match; cbn in *; simplify_eq); unfold batch_effects; cbn;
    (split; [first [reflexivity | apply insert_subseteq; assumption]|]);
    rewrite <- ?app_assoc; cbn [app];
    eexists; (split; [reflexivity|]); (split; [cbn; lia|]);
    (split;
     [ first
         [ solve [apply requests_paced_logs; repeat constructor]
         | intros i u px Hi;
           do 7 (try destruct i as [|i]); cbn in Hi; simplify_eq;
           (split; [reflexivity|]); eexists; (split; [reflexivity|]);
           split; reflexivity ]
     | intros u0 j0 Hu0;
       first
         [ left; exact Hu0
         | destruct (decide (u0 = url)) as [->|Hne];
           [ right; set_solver
           | left; rewrite lookup_insert_ne in Hu0 by congruence; exact Hu0 ] ] ]).
Qed.

Lemma for_each_effects (a : fetch_args) (chunks : list (list row))
    (s s' : state) (r : result unit) :
  for_each chunks (fetch_batch a) s = (r, s') ->
  batch_effects a (length chunks) s s'.
Proof.
  revert s. induction chunks as [|chunk chunks IH]; intros s Hrun.
  - cbn in Hrun. unfold ret in Hrun. simplify_eq. apply batch_effects_refl.
  - cbn [for_each] in Hrun. unfold bind in Hrun.
    destruct (fetch_batch a chunk s) as [[[]|e] s1] eqn:Hfirst.
    + apply (batch_effects_trans a 1 (length chunks) s s1 s').
      * eapply fetch_batch_effects; eassumption.
      * apply IH; exact Hrun.
    + simplify_eq. apply (batch_effects_mono a 1); [cbn; lia|].
      eapply fetch_batch_effects; eassumption.
Qed.

Lemma batch_effects_log (a : fetch_args) (m : log_msg) (s : state) :
  batch_effects a 0 s (add_event (EvLog m) s).
Proof.
  split; [reflexivity|]. exists [EvLog m]. split; [reflexivity|].
  split; [cbn; lia|]. split; [apply requests_paced_logs; repeat constructor|].
  intros url j Hj. left. exact Hj.
Qed.

(** The whole fetch keeps every cache entry and issues at most as many
    requests as the loop has batches, each of them paced. *)
Lemma fetch_effects (a : fetch_args) (s : state) :
  batch_effects a (batch_count (length (df_rows (frame s)))
                               (Z.to_nat (max_locations_per_batch a)))
                s (fetch_elevations_for_latitude_longitude_pairs a s).2.
Proof.
  unfold fetch_elevations_for_latitude_longitude_pairs, fetch_batches.
  unfold bind at 1 2 3 4, modify, get_state. cbn.
  destruct (max_locations_per_batch a =? 0) eqn:Hzero; cbn.
  { apply (batch_effects_mono a 0); [lia|]. apply batch_effects_same; reflexivity. }
  apply Z.eqb_neq in Hzero.
  set (s0 := set_vars _ s).
  set (s1 := add_event _ s0).
  assert (batch_effects a 0 s s1) as Hstart.
  { apply (batch_effects_trans a 0 0 s s0 s1);
      [apply batch_effects_same; reflexivity|apply batch_effects_log]. }
  unfold lift, bind.
  destruct (batches (df_rows (frame s)) (max_locations_per_batch a))
    as [chunks|e] eqn:Hb.
  2:{ cbn. apply (batch_effects_mono a 0); [lia|exact Hstart]. }
  assert (length chunks = batch_count (length (df_rows (frame s)))
                            (Z.to_nat (max_locations_per_batch a))) as Hlen.
  { destruct (Z.lt_ge_cases 0 (max_locations_per_batch a)) as [Hpos|Hneg].
    - destruct (batches_slices (df_rows (frame s)) _ Hpos) as (cs & Hcs & Hcount & _).
      rewrite Hb in Hcs. simplify_eq. exact Hcount.
    - rewrite batches_negative_step in Hb by lia. simplify_eq.
      replace (Z.to_nat (max_locations_per_batch a)) with 0%nat by lia.
      unfold batch_count. rewrite Nat.div_0_r. reflexivity. }
  destruct (for_each chunks (fetch_batch a) s1) as [[[]|e] s2] eqn:Hloop.
  - apply for_each_effects in Hloop. rewrite Hlen in Hloop.
    pose proof (batch_effects_trans a 0 _ s s1 s2 Hstart Hloop) as Hall.
    cbn [Nat.add] in Hall.
    case_bool_decide; cbn; [|exact Hall].
    replace (batch_count _ _) with
      (batch_count (length (df_rows (frame s))) (Z.to_nat (max_locations_per_batch a)) + (0 + 0))%nat
      by lia.
    eapply batch_effects_trans; [exact Hall|].
    eapply batch_effects_trans; [apply batch_effects_log|].
    apply batch_effects_same; reflexivity.
  - apply for_each_effects in Hloop. rewrite Hlen in Hloop. cbn [snd].
    exact (batch_effects_trans a 0 _ s s1 s2 Hstart Hloop).
Qed.

(** X5.  The fetch never removes or replaces a cache entry: whatever it
    returns or raises, every entry of the cache before the call is in
    the cache after it. *)
Theorem fetch_cache_grows (a : fetch_args) (s : state) :
  cache s ⊆ cache (fetch_elevations_for_latitude_longitude_pairs a s).2.
Proof. exact (proj1 (fetch_effects a s)). Qed.

(** X6.  The fetch issues at most [ceil(N / B)] requests, whatever the cache
    holds and whatever the network answers; none at all when the batch
    size is not positive. *)
Theorem fetch_requests_bounded (a : fetch_args) (s : state) :
  exists t : list event,
    trace (fetch_elevations_for_latitude_longitude_pairs a s).2 = (trace s ++ t)%list /\
    (length (network_calls t) <=
     batch_count (length (df_rows (frame s))) (Z.to_nat (max_locations_per_batch a)))%nat.
Proof.
  destruct (fetch_effects a s) as (_ & t & Ht & Hn & _).
  exists t. split; [exact Ht|exact Hn].
Qed.

(** X7.  Every request of a fetch is issued with the caller's proxies and
    comes directly after a pause of [pause_duration], announced by the
    log line that carries its URL. *)
Theorem fetch_requests_paced (a : fetch_args) (s : state) :
  exists t : list event,
    trace (fetch_elevations_for_latitude_longitude_pairs a s).2 = (trace s ++ t)%list /\
    requests_paced a t.
Proof.
  destruct (fetch_effects a s) as (_ & t & Ht & _ & Hp & _).
  exists t. split; [exact Ht|exact Hp].
Qed.

(** X8.  The fetch caches nothing that it did not request: every entry of the
    cache after the call was there before it, or is under a URL that a
    request of this call was issued for. *)
Theorem fetch_caches_only_requested (a : fetch_args) (s : state) :
  exists t : list event,
    trace (fetch_elevations_for_latitude_longitude_pairs a s).2 = (trace s ++ t)%list /\
    forall (url : string) (j : json_body),
      cache (fetch_elevations_for_latitude_longitude_pairs a s).2 !! url = Some j ->
      cache s !! url = Some j \/ EvGet url (proxies a) ∈ t.
Proof.
  destruct (fetch_effects a s) as (_ & t & Ht & _ & _ & Hk).
  exists t. split; [exact Ht|exact Hk].
Qed.

(** ** A pause that [time.sleep] refuses *)

Lemma untouched_refl (s : state) : untouched s s.
Proof. repeat split. Qed.

Lemma untouched_trans (s1 s2 s3 : state) :
  untouched s1 s2 -> untouched s2 s3 -> untouched s1 s3.
Proof.
  intros (Hc1 & Hn1 & Ht1) (Hc2 & Hn2 & Ht2).
  repeat split; etrans; eassumption.
Qed.

Lemma untouched_log (m : log_msg) (s : state) : untouched s (add_event (EvLog m) s).
Proof.
  repeat split. cbn. unfold network_calls. rewrite List.filter_app. cbn.
  apply app_nil_r.
Qed.

(** With a pause that is negative or not a number, an iteration of the
    loop raises at line 83, before the request of line 84. *)
Lemma fetch_batch_invalid_pause (a : fetch_args) (chunk : list row) :
  PrimFloat.leb 0 (pause_duration a) = false ->
  respects untouched any_exn (fetch_batch a chunk).
Proof.
  intros Hpause s r s' Hrun. split; [|intros; exact I].
  revert Hrun.
  unfold fetch_batch, bind, lift, get_from_cache, get_state, ret.
  destruct (request_url a chunk) as [url|e]; cbn.
  2:{ intros [= <- <-]. apply untouched_refl. }
  unfold try_except, bind, log, time_sleep, modify, bind, get_state.
  rewrite Hpause.
  unfold except_handler, assign_response_json, extend_results, bind, log, modify,
    get_state, raise, ret.
  intros Hrun. cbn in Hrun.
  repeat (case_match; cbn in *; simplify_eq);
    repeat split; cbn; unfold network_calls;
    rewrite ?List.filter_app; cbn; rewrite ?app_nil_r; reflexivity.
Qed.

(** X9.  A pause that is negative or not a number: no request is ever issued,
    and the cache and the network are left as they were, whether the
    fetch returns (every batch was cached) or raises. *)
Theorem fetch_invalid_pause (a : fetch_args) (s : state) :
  PrimFloat.leb 0 (pause_duration a) = false ->
  untouched s (fetch_elevations_for_latitude_longitude_pairs a s).2.
Proof.
  intros Hpause.
  assert (respects untouched any_exn
            (fetch_elevations_for_latitude_longitude_pairs a)) as Hrespects.
  { unfold fetch_elevations_for_latitude_longitude_pairs, fetch_batches,
      attach_elevations.
    repeat first
      [ apply respects_bind; [exact untouched_trans| |intros ?]
      | apply respects_get_state; exact untouched_refl
      | apply respects_modify; intros ?; first [apply untouched_log|repeat split]
      | apply respects_raise; [exact untouched_refl|exact I]
      | apply respects_lift; [exact untouched_refl|intros; exact I]
      | apply respects_for_each;
        [exact untouched_refl|exact untouched_trans|
         intros ?; apply fetch_batch_invalid_pause; exact Hpause]
      | match goal with
        | |- respects _ _ (if ?x then _ else _) => destruct x
        | |- respects _ _ (log _) => unfold log
        end ]. }
  destruct (fetch_elevations_for_latitude_longitude_pairs a s) as [r s'] eqn:Hrun.
  exact (proj1 (Hrespects s r s' Hrun)).
Qed.

Lemma fetch_invalid_pause_witness :
  network (fetch_elevations_for_latitude_longitude_pairs
             (with_pause (-1) demo_args) demo_state).2 = network demo_state /\
  (fetch_elevations_for_latitude_longitude_pairs
     (with_pause (-1) demo_args) demo_state).1 = Raise (UnboundLocalError "response").
Proof.
  destruct (fetch_invalid_pause (with_pause (-1) demo_args) demo_state eq_refl)
    as (_ & Hnet & _).
  split; [exact Hnet|vm_compute; reflexivity].
Defined.

(** ** More on edge grades *)

(** The body of the loop on an edge it has already graded, with the node
    elevations unchanged, computes the same data dictionary again. *)
Lemma graded_again (G : Graph) (add_absolute : bool) (e : edge) (data : attrs) :
  graded G add_absolute e = Ok data ->
  graded G add_absolute (mk_edge (e_src e) (e_dst e) data) = Ok data.
Proof.
  intros Hgraded.
  assert (data !! "length" = e_data e !! "length") as Hlength.
  { apply (graded_frame G add_absolute e data "length" Hgraded); [discriminate|].
    left. discriminate. }
  revert Hgraded. unfold graded, getitem. cbn [e_src e_dst e_data].
  rewrite Hlength.
  destruct (node_elevation G (e_dst e)) as [ev|]; [|discriminate].
  destruct (node_elevation G (e_src e)) as [eu|]; [|discriminate].
  destruct (e_data e !! "length") as [L|]; [|discriminate].
  destruct (truediv (PrimFloat.sub ev eu) L) as [q|]; [|discriminate].
  intros [= <-]. f_equal.
  destruct add_absolute; apply map_eq; intros name;
    destruct (decide (name = "grade_abs")) as [Habs|Habs];
    destruct (decide (name = "grade")) as [Hgrade|Hgrade];
    subst; try discriminate;
    rewrite ?lookup_insert_eq, ?lookup_insert_ne by congruence;
    rewrite ?lookup_insert_eq, ?lookup_insert_ne by congruence;
    rewrite ?lookup_insert_eq, ?lookup_insert_ne by congruence;
    rewrite ?lookup_insert_eq, ?lookup_insert_ne by congruence;
    reflexivity.
Qed.

Lemma grade_all_again (G : Graph) (add_absolute : bool) (todo : list edge) :
  grade_all G add_absolute (grade_all G add_absolute todo).1 =
  grade_all G add_absolute todo.
Proof.
  induction todo as [|e rest IH]; [reflexivity|].
  cbn [grade_all].
  destruct (graded G add_absolute e) as [data|x] eqn:Hgraded.
  - destruct (grade_all G add_absolute rest) as [rest' stop] eqn:Hrest.
    cbn [fst] in IH |- *. cbn [grade_all].
    rewrite (graded_again G add_absolute e data Hgraded). cbn [e_src e_dst].
    rewrite IH. reflexivity.
  - cbn [fst grade_all]. rewrite Hgraded. reflexivity.
Qed.

(** X10.  Running the edge annotator a second time changes nothing: it ends
    the same way, returning or raising the same exception at the same
    edge, and leaves the graph of the first run. *)
Theorem add_edge_grades_idempotent (add_absolute : bool) (s : state) :
  let once := add_edge_grades add_absolute s in
  let twice := add_edge_grades add_absolute once.2 in
  twice.1 = once.1 /\ graph twice.2 = graph once.2.
Proof.
  cbn zeta.
  destruct (add_edge_grades_state add_absolute s) as (Hnodes & Hedges & Hout & _).
  destruct (add_edge_grades_state add_absolute (add_edge_grades add_absolute s).2)
    as (Hnodes2 & Hedges2 & Hout2 & _).
  rewrite Hedges in Hedges2, Hout2.
  rewrite (grade_all_same_nodes _ _ add_absolute _ Hnodes) in Hedges2, Hout2.
  rewrite grade_all_again in Hedges2, Hout2.
  split; [rewrite Hout2, Hout; reflexivity|].
  rewrite <- Hedges in Hedges2.
  destruct (graph (add_edge_grades add_absolute (add_edge_grades add_absolute s).2).2)
    as [nodes2 edges2].
  destruct (graph (add_edge_grades add_absolute s).2) as [nodes1 edges1].
  cbn in *. congruence.
Qed.

Lemma grade_all_stop (G : Graph) (add_absolute : bool) (todo : list edge) :
  forall (k : nat) (e : edge) (x : exn),
    Forall (fun e' => exists data, graded G add_absolute e' = Ok data) (take k todo) ->
    todo !! k = Some e ->
    graded G add_absolute e = Raise x ->
    (grade_all G add_absolute todo).2 = Some x /\
    drop k (grade_all G add_absolute todo).1 = drop k todo.
Proof.
  induction todo as [|e0 rest IH]; intros k e x Hall Hk Hx; [destruct k; discriminate|].
  destruct k as [|k]; cbn in Hk.
  - injection Hk as ->. cbn [grade_all]. rewrite Hx. split; reflexivity.
  - cbn [take] in Hall. apply Forall_cons in Hall as [[data0 H0] Hall].
    cbn [grade_all]. rewrite H0.
    destruct (grade_all G add_absolute rest) as [rest' stop] eqn:Hrest.
    specialize (IH k e x Hall Hk Hx). cbn [fst snd] in IH |- *. exact IH.
Qed.

(** X11.  The annotator does not roll back: when the body of the loop raises
    at the edge in position [k], the first it cannot grade, the annotator
    raises that exception and writes no closing log line; the edges from
    [k] on are as they were, and the [k] edges before it keep the grades
    the loop has written. *)
Theorem add_edge_grades_stops_at_first_failure (add_absolute : bool) (s : state)
    (k : nat) (e : edge) (x : exn) :
  Forall (fun e' => exists data, graded (graph s) add_absolute e' = Ok data)
         (take k (g_edges (graph s))) ->
  g_edges (graph s) !! k = Some e ->
  graded (graph s) add_absolute e = Raise x ->
  let out := add_edge_grades add_absolute s in
  out.1 = Raise x /\
  trace out.2 = trace s /\
  g_nodes (graph out.2) = g_nodes (graph s) /\
  drop k (g_edges (graph out.2)) = drop k (g_edges (graph s)) /\
  forall (i : nat) (e_i : edge),
    (i < k)%nat ->
    g_edges (graph s) !! i = Some e_i ->
    exists data,
      graded (graph s) add_absolute e_i = Ok data /\
      g_edges (graph out.2) !! i = Some (mk_edge (e_src e_i) (e_dst e_i) data).
Proof.
  intros Hall Hk Hx. cbn zeta.
  destruct (grade_all_stop _ add_absolute _ k e x Hall Hk Hx) as [Hstop Hdrop].
  rewrite add_edge_grades_run. cbn zeta. rewrite Hstop. cbn.
  split; [reflexivity|]. split; [reflexivity|]. split; [reflexivity|].
  split; [exact Hdrop|].
  intros i e_i Hi Hlookup.
  apply grade_all_prefix; [|exact Hlookup].
  replace (take (S i) (g_edges (graph s)))
    with (take (S i) (take k (g_edges (graph s))))
    by (rewrite take_take; f_equal; lia).
  apply Forall_take. exact Hall.
Qed.

(** Three edges, the second of length zero: the annotator raises at the
    second edge, the first edge keeps the grade written before that, and
    the second and third edges are as they were. *)
Lemma add_edge_grades_stops_witness :
  (add_edge_grades true (state_of_graph washout_graph)).1 = Raise ZeroDivisionError /\
  (exists e',
     g_edges (graph (add_edge_grades true (state_of_graph washout_graph)).2) !! 0%nat =
       Some e' /\
     e_data e' !! "grade" = Some 0.2%float /\
     e_data e' !! "grade_abs" = Some 0.2%float) /\
  drop 1 (g_edges (graph (add_edge_grades true (state_of_graph washout_graph)).2)) =
    drop 1 (g_edges washout_graph).
Proof.
  destruct (add_edge_grades_stops_at_first_failure true (state_of_graph washout_graph)
              1 (mk_edge (KInt 2) (KInt 1) {[ "length" := 0%float ]}) ZeroDivisionError
              ltac:(apply Forall_cons; split;
                    [eexists; vm_compute; reflexivity|apply Forall_nil; exact I])
              eq_refl ltac:(vm_compute; reflexivity))
    as (Hout & _ & _ & Hdrop & Hbefore).
  destruct (Hbefore 0%nat (mk_edge (KInt 1) (KInt 2) {[ "length" := 50%float ]})
              ltac:(lia) eq_refl) as (data & Hgraded & Hfirst).
  split; [exact Hout|]. split; [|exact Hdrop].
  eexists. split; [exact Hfirst|]. cbn [e_data].
  vm_compute in Hgraded. injection Hgraded as <-.
  split; vm_compute; reflexivity.
Defined.







Lemma graded_has_grade (G : Graph) (add_absolute : bool) (e : edge) (data : attrs) :
  graded G add_absolute e = Ok data ->
  exists grade,
    data !! "grade" = Some grade /\
    (add_absolute = true -> data !! "grade_abs" = Some (PrimFloat.abs grade)).
Proof.
  unfold graded. intros Hgraded. repeat case_match; simplify_eq.
  - eexists. split; [|intros _; apply lookup_insert_eq].
    rewrite lookup_insert_ne by discriminate. apply lookup_insert_eq.
  - eexists. split; [apply lookup_insert_eq|discriminate].
Qed.

Lemma grade_all_done (G : Graph) (add_absolute : bool) (todo : list edge) :
  (grade_all G add_absolute todo).2 = None ->
  Forall2 (fun e e' => exists data, graded G add_absolute e = Ok data /\
                                    e' = mk_edge (e_src e) (e_dst e) data)
          todo (grade_all G add_absolute todo).1.
Proof.
  induction todo as [|e rest IH]; [constructor|].
  cbn [grade_all]. destruct (graded G add_absolute e) as [data|x] eqn:Hgraded; [|discriminate].
  destruct (grade_all G add_absolute rest) as [rest' stop]. cbn [fst snd] in IH |- *.
  intros Hstop. constructor; [|apply IH; exact Hstop].
  exists data. split; [exact Hgraded|reflexivity].
Qed.

(** X13.  When the annotator returns, no edge was skipped: every edge of the
    graph carries a ['grade'] and, when [add_absolute] is set, a
    ['grade_abs'] that is the absolute value of that grade; and the run
    ends with the closing log line. *)
Theorem add_edge_grades_ok_complete (add_absolute : bool) (s : state) :
  (add_edge_grades add_absolute s).1 = Ok tt ->
  let out := add_edge_grades add_absolute s in
  trace out.2 = (trace s ++ [EvLog LogAddedGrades])%list /\
  Forall (fun e' : edge =>
            exists grade,
              e_data e' !! "grade" = Some grade /\
              (add_absolute = true ->
               e_data e' !! "grade_abs" = Some (PrimFloat.abs grade)))
         (g_edges (graph out.2)).
Proof.
  cbn zeta. rewrite add_edge_grades_run. cbn zeta.
  destruct (grade_all (graph s) add_absolute (g_edges (graph s))).2 as [x|] eqn:Hstop;
    [discriminate|].
  intros _. cbn. split; [reflexivity|].
  pose proof (grade_all_done _ _ _ Hstop) as Hdone.
  apply Forall_forall. intros e' He'.
  apply list_elem_of_lookup_1 in He' as [i Hi].
  destruct (Forall2_lookup_r _ _ _ _ _ Hdone Hi) as (e & _ & data & Hgraded & ->).
  cbn [e_data]. exact (graded_has_grade _ _ _ _ Hgraded).
Qed.

Lemma add_edge_grades_ok_complete_witness :
  trace (add_edge_grades true (state_of_graph hill_graph)).2 = [EvLog LogAddedGrades] /\
  length (g_edges (graph (add_edge_grades true (state_of_graph hill_graph)).2)) = 2%nat.
Proof.
  destruct (add_edge_grades_ok_complete true (state_of_graph hill_graph)
              ltac:(vm_compute; reflexivity)) as [Htrace Hall].
  split; [exact Htrace|vm_compute; reflexivity].
Defined.

(** ** The count check looks at totals *)

(** X14.  The count check compares the two totals and nothing else: when every
    batch is served and the results of all batches together are as many
    as the coordinate pairs, the fetch returns, however many results
    each single batch brought, and the column is the results of the
    batches one after the other. *)
Theorem fetch_count_check_totals_only (a : fetch_args) (s : state)
    (chunks : list (list row)) (js : list json_body)
    (c' : gmap string json_body) (n' : list http_outcome) :
  batches (df_rows (frame s)) (max_locations_per_batch a) = Ok chunks ->
  served a chunks (cache s) (network s) js c' n' ->
  length (concat (json_results <$> js)) = length (df_rows (frame s)) ->
  let out := fetch_elevations_for_latitude_longitude_pairs a s in
  out.1 = Ok tt /\
  df_elevation (frame out.2) = Some (elevation <$> concat (json_results <$> js)).
Proof.
  intros Hb Hserved Htotal. cbn zeta.
  destruct (fetch_served a s chunks js c' n' Hb Hserved) as (_ & _ & _ & Hout).
  rewrite bool_decide_eq_true_2 in Hout by exact Htotal.
  destruct Hout as [Hok Hframe]. split; [exact Hok|]. rewrite Hframe. reflexivity.
Qed.

(** One result for the two pairs of the first batch and two for the one
    pair of the second: the fetch returns, and the second pair carries an
    elevation of the second batch. *)
Lemma fetch_count_check_totals_only_witness :
  (fetch_elevations_for_latitude_longitude_pairs demo_args skewed_state).1 = Ok tt /\
  df_elevation (frame (fetch_elevations_for_latitude_longitude_pairs
                         demo_args skewed_state).2) = Some [11; 30; 31]%float.
Proof.
  refine (fetch_count_check_totals_only demo_args skewed_state
            [take 2 demo_rows; drop 2 demo_rows]
            [mk_json [mk_entry 11%float]; mk_json [mk_entry 30%float; mk_entry 31%float]]
            _ [] ltac:(vm_compute; reflexivity) _ eq_refl).
  eapply served_miss; [vm_compute; reflexivity..|].
  eapply served_miss; [vm_compute; reflexivity..|].
  apply served_nil.
Defined.

(** ** The node annotator end to end *)

Lemma coordinate_table_ok (G : Graph) :
  g_nodes G <> [] ->
  Forall (fun nd : node_key * attrs =>
            is_Some (nd.2 !! "y") /\ is_Some (nd.2 !! "x")) (g_nodes G) ->
  forallb fits_int64 (g_nodes G).*1 = true ->
  exists rows, coordinate_table G = Ok (mk_frame rows None) /\ rows <> [].
Proof.
  intros Hnonempty Hxy Hkeys.
  destruct (collect_node_triples_ok _ Hxy) as [rows Hrows].
  pose proof (collect_node_triples _ _ Hrows) as Htriples.
  pose proof (triples_index _ _ Htriples) as Hindex.
  assert (rows <> []) as Hrows_nonempty.
  { intros ->. apply Forall2_nil_inv_r in Htriples. contradiction. }
  exists rows. split; [|exact Hrows_nonempty].
  unfold coordinate_table. rewrite Hrows, Hindex.
  unfold key_dtype. rewrite Hkeys.
  destruct (g_nodes G).*1 as [|k keys] eqn:Hk.
  { destruct (g_nodes G); [contradiction|discriminate]. }
  rewrite bool_decide_eq_true_2 by reflexivity.
  destruct rows as [|r rows]; [contradiction|]. reflexivity.
Qed.

Lemma node_template_index_error (locations : string) (kwargs : gmap string string) :
  PyFormat.format default_node_url_template [locations] kwargs = Raise (IndexError 1).
Proof. vm_compute. reflexivity. Qed.

Lemma fetch_first_url_error (a : fetch_args) (s : state) (e : exn) :
  0 < max_locations_per_batch a ->
  df_rows (frame s) <> [] ->
  (forall chunk, request_url a chunk = Raise e) ->
  let out := fetch_elevations_for_latitude_longitude_pairs a s in
  out.1 = Raise e /\ graph out.2 = graph s /\ cache out.2 = cache s /\
  network out.2 = network s /\
  network_calls (trace out.2) = network_calls (trace s).
Proof.
  intros Hpos Hrows Hurl. cbn zeta.
  destruct (batches_nonempty _ _ Hpos Hrows) as (chunk & chunks & Hb).
  unfold fetch_elevations_for_latitude_longitude_pairs, bind.
  rewrite (fetch_batches_first_url_error a s e chunk chunks Hb (Hurl chunk)).
  cbn. unfold network_calls. rewrite List.filter_app. cbn. rewrite app_nil_r. auto.
Qed.

(** X15.  With the URL template the node annotator has by default, whose two
    fields are both positional, the fetch passes one positional argument
    and [format] raises [IndexError] at the first batch: on every graph
    whose coordinate table is accepted the annotator raises, requests
    nothing and leaves the graph without elevations. *)
Theorem node_default_template_index_error (a : node_args) (s : state) :
  node_url_template a = default_node_url_template ->
  0 < node_max_locations_per_batch a ->
  g_nodes (graph s) <> [] ->
  Forall (fun nd : node_key * attrs =>
            is_Some (nd.2 !! "y") /\ is_Some (nd.2 !! "x")) (g_nodes (graph s)) ->
  forallb fits_int64 (g_nodes (graph s)).*1 = true ->
  let out := add_node_elevations a s in
  out.1 = Raise (IndexError 1) /\
  graph out.2 = graph s /\ cache out.2 = cache s /\ network out.2 = network s /\
  network_calls (trace out.2) = network_calls (trace s).
Proof.
  intros Htemplate Hpos Hnonempty Hxy Hkeys. cbn zeta.
  destruct (coordinate_table_ok _ Hnonempty Hxy Hkeys) as (rows & Htable & Hrows).
  unfold add_node_elevations, bind, get_state, lift, modify. rewrite Htable.
  destruct (fetch_first_url_error (fetch_args_of a)
              (set_frame (mk_frame rows None) s) (IndexError 1) Hpos Hrows)
    as (Hout & Hgraph & Hcache & Hnet & Hcalls).
  { intros chunk. unfold request_url.
    destruct (locations_of_ok 5 chunk ltac:(lia)) as [locations Hloc].
    cbn [decimal_places_to_round fetch_args_of]. rewrite Hloc.
    cbn [url_template fetch_args_of]. rewrite Htemplate.
    apply node_template_index_error. }
  cbn zeta in Hout, Hgraph, Hcache, Hnet, Hcalls.
  destruct (fetch_elevations_for_latitude_longitude_pairs (fetch_args_of a)
              (set_frame (mk_frame rows None) s)) as [r s1].
  cbn [fst snd] in *. subst r. cbn [fst snd]. auto.
Qed.

Lemma node_default_template_index_error_witness :
  (add_node_elevations (default_node_args "K") survey_state).1 = Raise (IndexError 1) /\
  graph (add_node_elevations (default_node_args "K") survey_state).2 = hill_graph /\
  network (add_node_elevations (default_node_args "K") survey_state).2 =
    network survey_state.
Proof.
  destruct (node_default_template_index_error (default_node_args "K") survey_state
              eq_refl eq_refl ltac:(discriminate)
              ltac:(repeat (apply Forall_cons; split;
                            [split; eexists; vm_compute; reflexivity|]);
                    apply Forall_nil; exact I)
              eq_refl)
    as (Hout & Hgraph & _ & Hnet & _).
  split; [exact Hout|]. split; [exact Hgraph|exact Hnet].
Defined.

Lemma fetch_keeps_graph (a : fetch_args) (s : state) :
  graph (fetch_elevations_for_latitude_longitude_pairs a s).2 = graph s.
Proof.
  unfold fetch_elevations_for_latitude_longitude_pairs, bind.
  destruct (fetch_batches a s) as [[[]|e] s0] eqn:Hloop;
    destruct (fetch_batches_same_objects a _ _ _ Hloop) as [[_ Hgraph] _].
  - rewrite attach_elevations_run. cbn zeta. case_bool_decide; cbn; exact Hgraph.
  - exact Hgraph.
Qed.

(** X16.  The node annotator writes all elevations or none: whenever it
    raises, at the coordinate table, in the fetch or at its own count
    check, the graph is as it was. *)
Theorem add_node_elevations_atomic (a : node_args) (s : state) (e : exn) :
  (add_node_elevations a s).1 = Raise e ->
  graph (add_node_elevations a s).2 = graph s.
Proof.
  unfold add_node_elevations, bind, get_state, lift, modify.
  destruct (coordinate_table (graph s)) as [df|e0]; [|reflexivity].
  pose proof (fetch_keeps_graph (fetch_args_of a) (set_frame df s)) as Hgraph.
  destruct (fetch_elevations_for_latitude_longitude_pairs (fetch_args_of a)
              (set_frame df s)) as [[[]|e1] s1] eqn:Hfetch; [|intros _; exact Hgraph].
  destruct (fetch_returns _ _ _ Hfetch) as (_ & _ & column & Hcolumn & _).
  rewrite (write_node_elevations_run s1 column Hcolumn).
  case_bool_decide; [discriminate|]. intros _. exact Hgraph.
Qed.

Lemma add_node_elevations_atomic_witness :
  graph (add_node_elevations (default_node_args "K") (state_of_graph named_graph)).2 =
    named_graph.
Proof.
  exact (add_node_elevations_atomic (default_node_args "K") (state_of_graph named_graph)
           AssertionError ltac:(vm_compute; reflexivity)).
Defined.

Lemma collect_first_raise {A} (items : list (result A)) :
  forall (k : nat) (e : exn),
    Forall (fun x => exists v, x = Ok v) (take k items) ->
    items !! k = Some (Raise e) ->
    collect items = Raise e.
Proof.
  induction items as [|x items IH]; intros k e Hall Hk; [destruct k; discriminate|].
  destruct k as [|k]; cbn in Hk.
  - injection Hk as ->. reflexivity.
  - cbn [take] in Hall. apply Forall_cons in Hall as [[v ->] Hall].
    cbn [collect]. rewrite (IH k e Hall Hk). reflexivity.
Qed.

(** X17.  A node without ['y'] or ['x']: the generator of line 138 raises
    [KeyError] for the first such node, for ['y'] when both are missing,
    before any request; nothing at all is changed. *)
Theorem node_without_coordinate (a : node_args) (s : state)
    (k : nat) (nd : node_key * attrs) :
  g_nodes (graph s) !! k = Some nd ->
  Forall (fun nd' : node_key * attrs =>
            is_Some (nd'.2 !! "y") /\ is_Some (nd'.2 !! "x"))
         (take k (g_nodes (graph s))) ->
  nd.2 !! "y" = None \/ nd.2 !! "x" = None ->
  add_node_elevations a s =
    (Raise (KeyError (match nd.2 !! "y" with Some _ => "x" | None => "y" end)), s).
Proof.
  intros Hk Hbefore Hmissing.
  unfold add_node_elevations, bind, get_state, lift, coordinate_table.
  rewrite (collect_first_raise (node_triple <$> g_nodes (graph s)) k
             (KeyError (match nd.2 !! "y" with Some _ => "x" | None => "y" end))).
  - reflexivity.
  - rewrite <- fmap_take. apply Forall_fmap.
    eapply Forall_impl; [exact Hbefore|].
    intros nd' [[y Hy] [x Hx]]. cbn. unfold node_triple. rewrite Hy, Hx.
    eexists. reflexivity.
  - rewrite list_lookup_fmap, Hk. cbn. f_equal. unfold node_triple.
    destruct (nd.2 !! "y") as [y|]; [|reflexivity].
    destruct Hmissing as [Hy|Hx]; [discriminate|]. rewrite Hx. reflexivity.
Qed.

Lemma node_without_coordinate_witness :
  add_node_elevations survey_args (state_of_graph uncharted_graph) =
    (Raise (KeyError "x"), state_of_graph uncharted_graph).
Proof.
  refine (node_without_coordinate survey_args (state_of_graph uncharted_graph)
            1 (KInt 2, {[ "y" := 37.75%float ]}) eq_refl _ (or_intror eq_refl)).
  apply Forall_cons. split; [split; eexists; vm_compute; reflexivity|].
  apply Forall_nil. exact I.
Defined.

(** X18.  A graph without nodes: the columns of the empty table have the
    object dtype, so the first assertion fails; nothing is requested or
    changed. *)
Theorem empty_graph_refused (a : node_args) (s : state) :
  g_nodes (graph s) = [] ->
  add_node_elevations a s = (Raise AssertionError, s).
Proof.
  intros Hempty.
  unfold add_node_elevations, bind, get_state, lift, coordinate_table.
  rewrite Hempty. reflexivity.
Qed.

Lemma empty_graph_refused_witness :
  add_node_elevations survey_args (state_of_graph (mk_graph [] [])) =
    (Raise AssertionError, state_of_graph (mk_graph [] [])).
Proof.
  exact (empty_graph_refused survey_args (state_of_graph (mk_graph [] [])) eq_refl).
Defined.

Lemma foldl_insert_is_Some (keys : list node_key) :
  forall (values : list float) (d : gmap node_key float) (k : node_key),
    (length keys <= length values)%nat ->
    is_Some (d !! k) \/ k ∈ keys ->
    is_Some (foldl (fun d kv => <[kv.1 := kv.2]> d) d (zip keys values) !! k).
Proof.
  induction keys as [|k0 keys IH]; intros values d k Hlen Hk.
  - destruct Hk as [Hd|Hin]; [exact Hd|]. apply elem_of_nil in Hin. contradiction.
  - destruct values as [|v0 values]; [cbn in Hlen; lia|]. cbn in Hlen |- *.
    apply IH; [lia|].
    destruct (decide (k = k0)) as [->|Hne].
    + left. rewrite lookup_insert_eq. eexists. reflexivity.
    + rewrite lookup_insert_ne by congruence.
      destruct Hk as [Hd|Hin]; [left; exact Hd|].
      apply elem_of_cons in Hin as [Heq|Hin]; [contradiction|right; exact Hin].
Qed.

Lemma set_node_attributes_keys (G : Graph) (name : string) (values : gmap node_key float) :
  (g_nodes (set_node_attributes G name values)).*1 = (g_nodes G).*1.
Proof.
  cbn [set_node_attributes g_nodes]. rewrite <- list_fmap_compose.
  apply list_fmap_ext. intros i nd _. cbn.
  destruct (values !! nd.1); reflexivity.
Qed.

Lemma set_node_attributes_all (G : Graph) (name : string) (values : list float) :
  length values = length (g_nodes G) ->
  Forall (fun nd : node_key * attrs => is_Some (nd.2 !! name))
         (g_nodes (set_node_attributes G name (to_dict (g_nodes G).*1 values))).
Proof.
  intros Hlen. cbn [set_node_attributes g_nodes].
  apply Forall_fmap, Forall_forall. intros nd Hnd. cbn.
  destruct (foldl_insert_is_Some (g_nodes G).*1 values ∅ nd.1) as [v Hv].
  { rewrite length_fmap. lia. }
  { right. apply list_elem_of_fmap. exists nd. split; [reflexivity|exact Hnd]. }
  unfold to_dict. rewrite Hv. cbn. rewrite lookup_insert_eq. eexists. reflexivity.
Qed.

(** The graph a node annotator that returns has left. *)
Lemma add_node_elevations_returns (a : node_args) (s s1 : state) :
  add_node_elevations a s = (Ok tt, s1) ->
  exists values : list float,
    length values = length (g_nodes (graph s)) /\
    graph s1 = set_node_attributes (graph s) "elevation"
                 (to_dict (g_nodes (graph s)).*1 values).
Proof.
  unfold add_node_elevations, bind, get_state, lift, modify.
  destruct (coordinate_table (graph s)) as [df|e0] eqn:Htable; [|discriminate].
  destruct (coordinate_table_rows _ _ Htable) as [_ Hindex].
  destruct (fetch_elevations_for_latitude_longitude_pairs (fetch_args_of a)
              (set_frame df s)) as [[[]|e1] s0] eqn:Hfetch; [|discriminate].
  destruct (fetch_returns _ _ _ Hfetch) as (Hgraph & Hrows & column & Hcolumn & Hlen).
  cbn in Hgraph, Hrows, Hlen.
  rewrite (write_node_elevations_run s0 column Hcolumn).
  case_bool_decide as Hcount; [|discriminate]. intros [= <-]. cbn [graph].
  exists ((fun x => PyFloat.np_round x 3) <$> column).
  rewrite Hgraph in Hcount |- *.
  split; [rewrite length_fmap; exact Hcount|].
  rewrite Hrows, Hindex. reflexivity.
Qed.

(** X19.  The two annotators compose: on the graph that a node annotator that
    returned has left, every node carries an elevation, and when the
    edges have positive lengths the edge annotator returns, with a grade
    on every edge. *)
Theorem nodes_then_edges (a : node_args) (add_absolute : bool) (s s1 : state) :
  add_node_elevations a s = (Ok tt, s1) ->
  edges_in_graph (graph s) ->
  Forall positive_length (g_edges (graph s)) ->
  all_nodes_elevated (graph s1) /\
  (add_edge_grades add_absolute s1).1 = Ok tt.
Proof.
  intros Hnodes Hin Hlengths.
  destruct (add_node_elevations_returns a s s1 Hnodes) as (values & Hlen & Hgraph).
  assert (all_nodes_elevated (graph s1)) as Helevated.
  { unfold all_nodes_elevated. rewrite Hgraph.
    apply set_node_attributes_all. exact Hlen. }
  split; [exact Helevated|].
  assert (edges_in_graph (graph s1)) as Hin1.
  { unfold edges_in_graph. rewrite Hgraph, set_node_attributes_keys. exact Hin. }
  assert (g_edges (graph s1) = g_edges (graph s)) as Hedges.
  { rewrite Hgraph. reflexivity. }
  destruct (add_edge_grades_state add_absolute s1) as (_ & _ & Hout & _).
  rewrite Hout, grade_all_no_stop; [reflexivity|].
  pose proof (elevated_ends_in_graph _ Helevated Hin1) as Hends.
  rewrite Hedges in Hends |- *.
  apply Forall_forall. intros e He.
  rewrite Forall_forall in Hends, Hlengths.
  apply graded_gradable; [apply Hends, He|].
  apply positive_length_nonzero, Hlengths, He.
Qed.

Lemma nodes_then_edges_witness :
  (add_edge_grades true (add_node_elevations survey_args survey_state).2).1 = Ok tt.
Proof.
  exact (proj2 (nodes_then_edges survey_args true survey_state
                  (add_node_elevations survey_args survey_state).2
                  ltac:(vm_compute; reflexivity)
                  hill_edges_in_graph hill_positive_lengths)).
Defined.

(** ** What the loops never do *)

(** X20.  No batch of the loop is empty, whatever the batch size: the fetch
    never builds a request for zero locations. *)
Theorem batches_never_empty (rows : list row) (per_batch : Z)
    (chunks : list (list row)) :
  batches rows per_batch = Ok chunks ->
  Forall (fun chunk : list row => chunk <> []) chunks.
Proof.
  intros Hb.
  destruct (Z.lt_trichotomy 0 per_batch) as [Hpos|[Hzero|Hneg]].
  - destruct (batches_slices rows per_batch Hpos) as (chunks' & Hb' & Hcount & _ & Hslices).
    rewrite Hb in Hb'. injection Hb' as <-.
    apply Forall_lookup. intros k chunk Hk.
    pose proof (lookup_lt_Some _ _ _ Hk) as Hlt. rewrite Hcount in Hlt.
    apply batch_count_tight in Hlt; [|lia].
    rewrite (Hslices k chunk Hk). intros Hempty.
    apply (f_equal length) in Hempty.
    rewrite length_take, length_drop in Hempty. cbn in Hempty. lia.
  - apply batches_ok_nonzero in Hb. apply Z.eqb_neq in Hb. lia.
  - rewrite batches_negative_step in Hb by exact Hneg. injection Hb as <-.
    apply Forall_nil. exact I.
Qed.

Lemma batches_never_empty_witness :
  Forall (fun chunk : list row => chunk <> [])
         [take 2 five_rows; take 2 (drop 2 five_rows); drop 4 five_rows].
Proof.
  exact (batches_never_empty five_rows 2 _ eq_refl).
Defined.

(** X21.  Whatever its outcome, the edge annotator leaves the nodes, the
    frame, the cache and the network as they were and issues no request;
    it keeps the edges in number, order and endpoints, and in the data
    dictionary of an edge it changes no key other than ['grade'] and
    ['grade_abs']. *)
Theorem add_edge_grades_keeps_structure (add_absolute : bool) (s : state) :
  let out := add_edge_grades add_absolute s in
  g_nodes (graph out.2) = g_nodes (graph s) /\
  frame out.2 = frame s /\ cache out.2 = cache s /\ network out.2 = network s /\
  network_calls (trace out.2) = network_calls (trace s) /\
  length (g_edges (graph out.2)) = length (g_edges (graph s)) /\
  forall (k : nat) (e : edge),
    g_edges (graph s) !! k = Some e ->
    exists e',
      g_edges (graph out.2) !! k = Some e' /\
      e_src e' = e_src e /\ e_dst e' = e_dst e /\
      forall name : string,
        name <> "grade" -> name <> "grade_abs" ->
        e_data e' !! name = e_data e !! name.
Proof.
  cbn zeta.
  pose proof (grade_all_length (graph s) add_absolute (g_edges (graph s))) as Hlen.
  pose proof (grade_all_lookup (graph s) add_absolute (g_edges (graph s))) as Hlookup.
  rewrite add_edge_grades_run. cbn zeta.
  destruct (grade_all (graph s) add_absolute (g_edges (graph s))) as [edges' stop].
  cbn [fst snd] in Hlen, Hlookup |- *.
  assert (forall (k : nat) (e : edge),
            g_edges (graph s) !! k = Some e ->
            exists e',
              edges' !! k = Some e' /\
              e_src e' = e_src e /\ e_dst e' = e_dst e /\
              forall name : string,
                name <> "grade" -> name <> "grade_abs" ->
                e_data e' !! name = e_data e !! name) as Hedges.
  { intros k e Hk. destruct (Hlookup k e Hk) as [Hsame|(data & Hgraded & Hnew)].
    - exists e. split; [exact Hsame|]. auto.
    - eexists. split; [exact Hnew|]. cbn. split; [reflexivity|]. split; [reflexivity|].
      intros name Hgrade Habs.
      apply (graded_frame _ _ _ _ name Hgraded Hgrade). left. exact Habs. }
  destruct stop as [x|]; cbn; unfold network_calls;
    rewrite ?List.filter_app; cbn; rewrite ?app_nil_r; auto 10.
Qed.

(** ** Annotating the nodes a second time *)

Lemma coordinate_table_elevated (G : Graph) (values : gmap node_key float) :
  coordinate_table (set_node_attributes G "elevation" values) = coordinate_table G.
Proof.
  unfold coordinate_table.
  replace (node_triple <$> g_nodes (set_node_attributes G "elevation" values))
    with (node_triple <$> g_nodes G); [reflexivity|].
  cbn [set_node_attributes g_nodes]. rewrite <- list_fmap_compose.
  apply list_fmap_ext. intros i nd _. cbn.
  destruct (values !! nd.1); [|reflexivity].
  unfold node_triple. cbn. rewrite !lookup_insert_ne by discriminate. reflexivity.
Qed.

Lemma set_node_attributes_again (G : Graph) (name : string) (values : gmap node_key float) :
  set_node_attributes (set_node_attributes G name values) name values =
  set_node_attributes G name values.
Proof.
  unfold set_node_attributes. cbn [g_nodes g_edges]. f_equal.
  rewrite <- list_fmap_compose. apply list_fmap_ext. intros i nd _. cbn.
  destruct (values !! nd.1) as [v|] eqn:Hv; cbn; rewrite Hv; [|reflexivity].
  rewrite insert_insert_eq. reflexivity.
Qed.

(** X22.  The node annotator run twice: when every batch of the first run is
    served, with as many results in all as the graph has nodes, the
    first run returns, and so does a second run on the graph it has
    left, which finds every batch in the cache, issues no request, and
    writes the same elevations again: the graph, the cache and the
    network are those of the first run. *)
Theorem add_node_elevations_again (a : node_args) (s : state) (df : DataFrame)
    (chunks : list (list row)) (js : list json_body)
    (c' : gmap string json_body) (n' : list http_outcome) :
  coordinate_table (graph s) = Ok df ->
  batches (df_rows df) (node_max_locations_per_batch a) = Ok chunks ->
  served (fetch_args_of a) chunks (cache s) (network s) js c' n' ->
  length (concat (json_results <$> js)) = length (df_rows df) ->
  let run1 := add_node_elevations a s in
  let run2 := add_node_elevations a run1.2 in
  run1.1 = Ok tt /\ run2.1 = Ok tt /\
  graph run2.2 = graph run1.2 /\
  cache run2.2 = cache run1.2 /\ network run2.2 = network run1.2 /\
  network_calls (trace run2.2) = network_calls (trace run1.2).
Proof.
  intros Htable Hb Hserved Hcount. cbn zeta.
  destruct (coordinate_table_rows _ _ Htable) as [_ Hindex].
  set (got := concat (json_results <$> js)) in *.
  assert (length got = length (g_nodes (graph s))) as Hnodes.
  { rewrite Hcount, <- (length_fmap row_index), Hindex, length_fmap. reflexivity. }
  set (rounded := (fun x => PyFloat.np_round x 3) <$> (elevation <$> got)).
  assert (exists s1,
            add_node_elevations a s = (Ok tt, s1) /\ cache s1 = c' /\
            graph s1 = set_node_attributes (graph s) "elevation"
                         (to_dict (g_nodes (graph s)).*1 rounded)) as (s1 & Hrun1 & Hc1 & Hg1).
  { unfold add_node_elevations, bind, get_state, lift, modify. rewrite Htable.
    destruct (fetch_served (fetch_args_of a) (set_frame df s) chunks js c' n' Hb Hserved)
      as (Hc & _ & Hg & Hout).
    fold got in Hout.
    rewrite bool_decide_eq_true_2 in Hout by exact Hcount. destruct Hout as [Hok Hframe].
    destruct (fetch_elevations_for_latitude_longitude_pairs (fetch_args_of a)
                (set_frame df s)) as [r s0].
    cbn [fst snd graph frame set_frame df_rows] in Hc, Hg, Hok, Hframe. subst r.
    rewrite (write_node_elevations_run s0 (elevation <$> got))
      by (rewrite Hframe; reflexivity).
    rewrite bool_decide_eq_true_2 by (rewrite Hg, length_fmap; exact Hnodes).
    eexists. split; [reflexivity|]. cbn [cache graph]. split; [exact Hc|].
    rewrite Hframe, Hg. cbn [df_rows]. rewrite Hindex. reflexivity. }
  rewrite Hrun1. cbn [fst snd]. split; [reflexivity|].
  unfold add_node_elevations, bind, get_state, lift, modify.
  rewrite Hg1, coordinate_table_elevated, Htable.
  destruct (served_fills_cache _ _ _ _ _ _ _ Hserved) as [_ Hall].
  specialize (Hall (cache s1) ltac:(rewrite Hc1; reflexivity)).
  destruct (fetch_all_cached (fetch_args_of a) (set_frame df s1) chunks js Hb Hall)
    as (l & Hfetch2).
  cbn zeta in Hfetch2. fold got in Hfetch2.
  rewrite bool_decide_eq_true_2 in Hfetch2 by exact Hcount.
  rewrite Hfetch2.
  match goal with
  | |- context [write_node_elevations ?st] =>
      rewrite (write_node_elevations_run st (elevation <$> got) eq_refl)
  end.
  cbn [graph frame set_frame df_rows].
  rewrite bool_decide_eq_true_2.
  2:{ rewrite Hg1, length_fmap. cbn [set_node_attributes g_nodes].
      rewrite length_fmap. exact Hnodes. }
  cbn [fst snd graph cache network trace].
  split; [reflexivity|]. split.
  { rewrite Hindex. fold rounded. rewrite Hg1. apply set_node_attributes_again. }
  split; [reflexivity|]. split; [reflexivity|].
  unfold network_calls. rewrite !List.filter_app. cbn. rewrite !app_nil_r. reflexivity.
Qed.

Lemma add_node_elevations_again_witness :
  (add_node_elevations survey_args (add_node_elevations survey_args survey_state).2).1 = Ok tt /\
  graph (add_node_elevations survey_args (add_node_elevations survey_args survey_state).2).2 =
    graph (add_node_elevations survey_args survey_state).2.
Proof.
  destruct (add_node_elevations_again survey_args survey_state
              (mk_frame [mk_row (KInt 1) 37.5%float (-122.25)%float;
                         mk_row (KInt 2) 37.75%float (-122.5)%float] None)
              [[mk_row (KInt 1) 37.5%float (-122.25)%float;
                mk_row (KInt 2) 37.75%float (-122.5)%float]]
              [mk_json [mk_entry 123.45678%float; mk_entry 99.9994%float]]
              _ []
              ltac:(vm_compute; reflexivity) ltac:(vm_compute; reflexivity)
              ltac:(eapply served_miss; [vm_compute; reflexivity..|apply served_nil])
              eq_refl)
    as (_ & Hok & Hgraph & _).
  split; [exact Hok|exact Hgraph].
Defined.
